(** * Conversation and session orchestration of the Legal ChatBot client

    A shallow embedding of [frontend/src/App.js] (the [App] component, the
    [speech] utility and the axios interceptors) together with the part of
    [Sidebar] that decides which conversation entries can be clicked.

    React state is a record with one field per [useState] cell; every
    [setX] is a function on that record.  An [async] handler is cut at each
    [await]: the code before the first [await] is a function on the system
    state that leaves a request in flight together with a continuation, and
    the code after the [await] runs when the reply of that request is
    delivered.  A continuation stores exactly the variables the JavaScript
    closure still reads after the [await]. *)

From Stdlib Require Import String Ascii NArith ZArith Bool Lia DecimalString.
From stdpp Require Import base option list numbers.

Local Open Scope string_scope.
Local Open Scope list_scope.

(** ** JavaScript values *)

Module JS.

(** A JavaScript string is a sequence of UTF-16 code units. *)
Abbreviation jsstring := (list N).

Definition js (s : string) : jsstring :=
  map N_of_ascii (list_ascii_of_string s).

#[global] Arguments js : simpl never.

(** [WhiteSpace] and [LineTerminator] code points of ECMAScript, the ones
    [String.prototype.trim] strips. *)
Definition isWhiteSpace (c : N) : bool :=
  ((0x0009 <=? c) && (c <=? 0x000D) || (c =? 0x0020) || (c =? 0x00A0)
   || (c =? 0x1680) || (0x2000 <=? c) && (c <=? 0x200A)
   || (c =? 0x2028) || (c =? 0x2029) || (c =? 0x202F) || (c =? 0x205F)
   || (c =? 0x3000) || (c =? 0xFEFF))%N.

Fixpoint trimStart (s : jsstring) : jsstring :=
  match s with
  | c :: s' => if isWhiteSpace c then trimStart s' else s
  | [] => []
  end.

Definition trimEnd (s : jsstring) : jsstring := rev (trimStart (rev s)).

Definition trim (s : jsstring) : jsstring := trimEnd (trimStart s).

(** [s.split('/')[0]] *)
Fixpoint split_slash_0 (s : jsstring) : jsstring :=
  match s with
  | c :: s' => if (c =? 0x2F)%N then [] else c :: split_slash_0 s'
  | [] => []
  end.

(** Identifiers handed out by the backend: a number or a string. *)
Inductive JsId :=
| IdNum (n : Z)
| IdStr (s : jsstring).

#[global] Instance JsId_eq_dec : EqDecision JsId.
Proof. solve_decision. Defined.

(** [String(id)], as a template literal or [FormData.append] applies it. *)
Definition id_to_string (i : JsId) : jsstring :=
  match i with
  | IdNum n => js (NilZero.string_of_int (Z.to_int n))
  | IdStr s => s
  end.

(** [ToBoolean]: what [if (x)], [!x] and [x || y] test. *)
Class ToBoolean (A : Type) := toBoolean : A -> bool.

#[global] Instance string_ToBoolean : ToBoolean jsstring :=
  fun s => match s with [] => false | _ :: _ => true end.

#[global] Instance JsId_ToBoolean : ToBoolean JsId :=
  fun i => match i with
           | IdNum n => negb (n =? 0)%Z
           | IdStr s => toBoolean s
           end.

(** [null] and [undefined] are [None]. *)
#[global] Instance option_ToBoolean {A} `{ToBoolean A} : ToBoolean (option A) :=
  fun o => match o with Some a => toBoolean a | None => false end.

(** [a || b] where [a] may be missing and [b] is a string. *)
Definition or_else (a : option jsstring) (b : jsstring) : jsstring :=
  match a with
  | Some s => if toBoolean s then s else b
  | None => b
  end.

(** [a || []] *)
Definition or_empty {A} (a : option (list A)) : list A :=
  match a with Some l => l | None => [] end.

End JS.
Import JS.

(** ** Data model *)

(** A chat message.  [relatedQuestions] is [None] where the object has no
    such property (or has it set to [undefined]). *)
Record Message := {
  role : jsstring;
  content : jsstring;
  relatedQuestions : option (list jsstring)
}.

(** An entry of [response.data.messages] of [GET /conversations/{id}].  Only
    [role] and [content] are read; [hm_related_questions] stands for whatever
    else the backend stored with the message. *)
Record HistoryMessage := {
  hm_role : jsstring;
  hm_content : jsstring;
  hm_related_questions : option (list jsstring)
}.

Record ConversationSummary := {
  id : JsId;
  title : option jsstring;
  message_count : option Z;
  updated_at : jsstring;
  created_at : jsstring
}.

Record User := { username : jsstring; user_id : JsId }.

(** A [File] picked in the file input, or a recorded audio [Blob]. *)
Record File := { file_name : jsstring; file_type : jsstring; file_bytes : list N }.

#[global] Instance File_ToBoolean : ToBoolean File := fun _ => true.

(** Results of library calls whose code is outside the component. *)
Inductive ObjectURL := createObjectURL (file : File).
Inductive PlainText := toText (markdownText : jsstring).

#[global] Instance ObjectURL_ToBoolean : ToBoolean ObjectURL := fun _ => true.

(** The [useState] cells of [App], in declaration order. *)
Record AppState := {
  isAuthenticated : bool;
  user : option User;
  showAuthModal : bool;
  isCheckingAuth : bool;
  messages : list Message;
  input : jsstring;
  isLoading : bool;
  selectedImage : option File;
  imagePreview : option ObjectURL;
  isSpeaking : bool;
  speakingMessageId : option nat;
  conversations : list ConversationSummary;
  currentConversationId : option JsId;
  sidebarOpen : bool;
  isLoadingConversations : bool
}.

(** The setters.  [setMessages] and [setInput] take an updater
    ([prev => ...]); a call with a plain value is the constant updater. *)

Definition setIsAuthenticated (v : bool) (st : AppState) : AppState :=
  {| isAuthenticated := v; user := user st; showAuthModal := showAuthModal st;
     isCheckingAuth := isCheckingAuth st; messages := messages st;
     input := input st; isLoading := isLoading st;
     selectedImage := selectedImage st; imagePreview := imagePreview st;
     isSpeaking := isSpeaking st; speakingMessageId := speakingMessageId st;
     conversations := conversations st;
     currentConversationId := currentConversationId st;
     sidebarOpen := sidebarOpen st;
     isLoadingConversations := isLoadingConversations st |}.

Definition setUser (v : option User) (st : AppState) : AppState :=
  {| isAuthenticated := isAuthenticated st; user := v;
     showAuthModal := showAuthModal st; isCheckingAuth := isCheckingAuth st;
     messages := messages st; input := input st; isLoading := isLoading st;
     selectedImage := selectedImage st; imagePreview := imagePreview st;
     isSpeaking := isSpeaking st; speakingMessageId := speakingMessageId st;
     conversations := conversations st;
     currentConversationId := currentConversationId st;
     sidebarOpen := sidebarOpen st;
     isLoadingConversations := isLoadingConversations st |}.

Definition setShowAuthModal (v : bool) (st : AppState) : AppState :=
  {| isAuthenticated := isAuthenticated st; user := user st;
     showAuthModal := v; isCheckingAuth := isCheckingAuth st;
     messages := messages st; input := input st; isLoading := isLoading st;
     selectedImage := selectedImage st; imagePreview := imagePreview st;
     isSpeaking := isSpeaking st; speakingMessageId := speakingMessageId st;
     conversations := conversations st;
     currentConversationId := currentConversationId st;
     sidebarOpen := sidebarOpen st;
     isLoadingConversations := isLoadingConversations st |}.

Definition setIsCheckingAuth (v : bool) (st : AppState) : AppState :=
  {| isAuthenticated := isAuthenticated st; user := user st;
     showAuthModal := showAuthModal st; isCheckingAuth := v;
     messages := messages st; input := input st; isLoading := isLoading st;
     selectedImage := selectedImage st; imagePreview := imagePreview st;
     isSpeaking := isSpeaking st; speakingMessageId := speakingMessageId st;
     conversations := conversations st;
     currentConversationId := currentConversationId st;
     sidebarOpen := sidebarOpen st;
     isLoadingConversations := isLoadingConversations st |}.

Definition setMessages (f : list Message -> list Message) (st : AppState) : AppState :=
  {| isAuthenticated := isAuthenticated st; user := user st;
     showAuthModal := showAuthModal st; isCheckingAuth := isCheckingAuth st;
     messages := f (messages st); input := input st;
     isLoading := isLoading st; selectedImage := selectedImage st;
     imagePreview := imagePreview st; isSpeaking := isSpeaking st;
     speakingMessageId := speakingMessageId st;
     conversations := conversations st;
     currentConversationId := currentConversationId st;
     sidebarOpen := sidebarOpen st;
     isLoadingConversations := isLoadingConversations st |}.

Definition setInput (f : jsstring -> jsstring) (st : AppState) : AppState :=
  {| isAuthenticated := isAuthenticated st; user := user st;
     showAuthModal := showAuthModal st; isCheckingAuth := isCheckingAuth st;
     messages := messages st; input := f (input st);
     isLoading := isLoading st; selectedImage := selectedImage st;
     imagePreview := imagePreview st; isSpeaking := isSpeaking st;
     speakingMessageId := speakingMessageId st;
     conversations := conversations st;
     currentConversationId := currentConversationId st;
     sidebarOpen := sidebarOpen st;
     isLoadingConversations := isLoadingConversations st |}.

Definition setIsLoading (v : bool) (st : AppState) : AppState :=
  {| isAuthenticated := isAuthenticated st; user := user st;
     showAuthModal := showAuthModal st; isCheckingAuth := isCheckingAuth st;
     messages := messages st; input := input st; isLoading := v;
     selectedImage := selectedImage st; imagePreview := imagePreview st;
     isSpeaking := isSpeaking st; speakingMessageId := speakingMessageId st;
     conversations := conversations st;
     currentConversationId := currentConversationId st;
     sidebarOpen := sidebarOpen st;
     isLoadingConversations := isLoadingConversations st |}.

Definition setSelectedImage (v : option File) (st : AppState) : AppState :=
  {| isAuthenticated := isAuthenticated st; user := user st;
     showAuthModal := showAuthModal st; isCheckingAuth := isCheckingAuth st;
     messages := messages st; input := input st; isLoading := isLoading st;
     selectedImage := v; imagePreview := imagePreview st;
     isSpeaking := isSpeaking st; speakingMessageId := speakingMessageId st;
     conversations := conversations st;
     currentConversationId := currentConversationId st;
     sidebarOpen := sidebarOpen st;
     isLoadingConversations := isLoadingConversations st |}.

Definition setImagePreview (v : option ObjectURL) (st : AppState) : AppState :=
  {| isAuthenticated := isAuthenticated st; user := user st;
     showAuthModal := showAuthModal st; isCheckingAuth := isCheckingAuth st;
     messages := messages st; input := input st; isLoading := isLoading st;
     selectedImage := selectedImage st; imagePreview := v;
     isSpeaking := isSpeaking st; speakingMessageId := speakingMessageId st;
     conversations := conversations st;
     currentConversationId := currentConversationId st;
     sidebarOpen := sidebarOpen st;
     isLoadingConversations := isLoadingConversations st |}.

Definition setIsSpeaking (v : bool) (st : AppState) : AppState :=
  {| isAuthenticated := isAuthenticated st; user := user st;
     showAuthModal := showAuthModal st; isCheckingAuth := isCheckingAuth st;
     messages := messages st; input := input st; isLoading := isLoading st;
     selectedImage := selectedImage st; imagePreview := imagePreview st;
     isSpeaking := v; speakingMessageId := speakingMessageId st;
     conversations := conversations st;
     currentConversationId := currentConversationId st;
     sidebarOpen := sidebarOpen st;
     isLoadingConversations := isLoadingConversations st |}.

Definition setSpeakingMessageId (v : option nat) (st : AppState) : AppState :=
  {| isAuthenticated := isAuthenticated st; user := user st;
     showAuthModal := showAuthModal st; isCheckingAuth := isCheckingAuth st;
     messages := messages st; input := input st; isLoading := isLoading st;
     selectedImage := selectedImage st; imagePreview := imagePreview st;
     isSpeaking := isSpeaking st; speakingMessageId := v;
     conversations := conversations st;
     currentConversationId := currentConversationId st;
     sidebarOpen := sidebarOpen st;
     isLoadingConversations := isLoadingConversations st |}.

Definition setConversations (v : list ConversationSummary) (st : AppState) : AppState :=
  {| isAuthenticated := isAuthenticated st; user := user st;
     showAuthModal := showAuthModal st; isCheckingAuth := isCheckingAuth st;
     messages := messages st; input := input st; isLoading := isLoading st;
     selectedImage := selectedImage st; imagePreview := imagePreview st;
     isSpeaking := isSpeaking st; speakingMessageId := speakingMessageId st;
     conversations := v; currentConversationId := currentConversationId st;
     sidebarOpen := sidebarOpen st;
     isLoadingConversations := isLoadingConversations st |}.

Definition setCurrentConversationId (v : option JsId) (st : AppState) : AppState :=
  {| isAuthenticated := isAuthenticated st; user := user st;
     showAuthModal := showAuthModal st; isCheckingAuth := isCheckingAuth st;
     messages := messages st; input := input st; isLoading := isLoading st;
     selectedImage := selectedImage st; imagePreview := imagePreview st;
     isSpeaking := isSpeaking st; speakingMessageId := speakingMessageId st;
     conversations := conversations st; currentConversationId := v;
     sidebarOpen := sidebarOpen st;
     isLoadingConversations := isLoadingConversations st |}.

Definition setSidebarOpen (v : bool) (st : AppState) : AppState :=
  {| isAuthenticated := isAuthenticated st; user := user st;
     showAuthModal := showAuthModal st; isCheckingAuth := isCheckingAuth st;
     messages := messages st; input := input st; isLoading := isLoading st;
     selectedImage := selectedImage st; imagePreview := imagePreview st;
     isSpeaking := isSpeaking st; speakingMessageId := speakingMessageId st;
     conversations := conversations st;
     currentConversationId := currentConversationId st; sidebarOpen := v;
     isLoadingConversations := isLoadingConversations st |}.

Definition setIsLoadingConversations (v : bool) (st : AppState) : AppState :=
  {| isAuthenticated := isAuthenticated st; user := user st;
     showAuthModal := showAuthModal st; isCheckingAuth := isCheckingAuth st;
     messages := messages st; input := input st; isLoading := isLoading st;
     selectedImage := selectedImage st; imagePreview := imagePreview st;
     isSpeaking := isSpeaking st; speakingMessageId := speakingMessageId st;
     conversations := conversations st;
     currentConversationId := currentConversationId st;
     sidebarOpen := sidebarOpen st; isLoadingConversations := v |}.

(** ** The browser around the component *)

(** The function stored in the [onend] property of an utterance.  The
    program creates one such closure, the arrow function that
    [handleToggleSpeech] passes to [speech.speak]. *)
Inductive Callback := Cb_handleToggleSpeech_onEnd.

(** Calling it: [setIsSpeaking(false); setSpeakingMessageId(null)]. *)
Definition call (cb : Callback) (st : AppState) : AppState :=
  match cb with
  | Cb_handleToggleSpeech_onEnd =>
      let st := setIsSpeaking false st in
      setSpeakingMessageId None st
  end.

(** A [SpeechSynthesisUtterance]. *)
Record Utterance := { utt_text : PlainText; utt_onend : Callback }.

Record Browser := {
  token : option jsstring;         (* localStorage item 'token' *)
  stored_user : option jsstring;   (* localStorage item 'user' *)
  utterances : list Utterance;     (* every utterance created, oldest first *)
  speech_utterance : option nat;   (* speech.utterance, an index in [utterances] *)
  synth_queue : list nat;          (* speechSynthesis: the utterance being spoken, then those waiting *)
  alerts : list jsstring;          (* window.alert calls, oldest first *)
  console_errors : list jsstring;  (* console.error calls, oldest first *)
  reloads : nat                    (* window.location.reload calls *)
}.

(** ** Requests, replies and continuations *)

Inductive Method := GET | POST | DELETE.

Inductive FormValue :=
| FormString (value : jsstring)
| FormFile (file : File) (filename : option jsstring).

Abbreviation FormData := (list (jsstring * FormValue)).

(** The object [{ question, conversation_id? }] sent to [/chat]. *)
Record ChatRequestData := {
  question : jsstring;
  conversation_id : option JsId
}.

Inductive Body :=
| NoBody
| Json (requestData : ChatRequestData)
| Multipart (formData : FormData).

Record Request := {
  method : Method;
  url : jsstring;
  body : Body;
  authorization : option jsstring   (* the Authorization header *)
}.

(** [response.data], one shape per endpoint of the backend contract. *)
Inductive ResponseData :=
| D_chat (answer : jsstring) (related_questions : option (list jsstring))
         (conversation_id : option JsId)
| D_conversations (conversations : list ConversationSummary)
| D_messages (messages : list HistoryMessage)
| D_conversation_id (conversation_id : option JsId)
| D_message (message : jsstring)
| D_transcription (transcription : jsstring)
| D_empty.

(** The promise of a request resolves with data or rejects with an error;
    [status] is [error.response?.status] and [error] is
    [error.response?.data?.error]. *)
Inductive Reply :=
| Resolved (data : ResponseData)
| Rejected (status : option N) (error : option jsstring).

(** What is left to run once an awaited [loadConversations()] has settled. *)
Inductive After :=
| A_return
| A_handleSendMessage (answer : jsstring) (related_questions : option (list jsstring)).

(** The code after an [await api...], with the closure variables it reads. *)
Inductive Cont :=
| K_loadConversations (after : After)
| K_loadConversation (conversationId : JsId)
| K_createNewConversation
| K_deleteConversation (conversationId : JsId) (currentConversationId : option JsId)
| K_handleLogout
| K_handleSendMessage (selectedImage : option File) (currentConversationId : option JsId)
| K_handleDocumentUpload
| K_handleTranscription.

(** The whole system: React state, browser, and the requests in flight. *)
Record Sys := {
  app : AppState;
  browser : Browser;
  inflight : list (Request * Cont)
}.

Definition update (f : AppState -> AppState) (s : Sys) : Sys :=
  {| app := f (app s); browser := browser s; inflight := inflight s |}.

Definition with_browser (f : Browser -> Browser) (s : Sys) : Sys :=
  {| app := app s; browser := f (browser s); inflight := inflight s |}.

Definition removeItem_token (b : Browser) : Browser :=
  {| token := None; stored_user := stored_user b; utterances := utterances b;
     speech_utterance := speech_utterance b; synth_queue := synth_queue b;
     alerts := alerts b; console_errors := console_errors b; reloads := reloads b |}.

Definition removeItem_user (b : Browser) : Browser :=
  {| token := token b; stored_user := None; utterances := utterances b;
     speech_utterance := speech_utterance b; synth_queue := synth_queue b;
     alerts := alerts b; console_errors := console_errors b; reloads := reloads b |}.

Definition alert (msg : jsstring) (b : Browser) : Browser :=
  {| token := token b; stored_user := stored_user b; utterances := utterances b;
     speech_utterance := speech_utterance b; synth_queue := synth_queue b;
     alerts := alerts b ++ [msg]; console_errors := console_errors b;
     reloads := reloads b |}.

Definition console_error (msg : jsstring) (b : Browser) : Browser :=
  {| token := token b; stored_user := stored_user b; utterances := utterances b;
     speech_utterance := speech_utterance b; synth_queue := synth_queue b;
     alerts := alerts b; console_errors := console_errors b ++ [msg];
     reloads := reloads b |}.

Definition location_reload (b : Browser) : Browser :=
  {| token := token b; stored_user := stored_user b; utterances := utterances b;
     speech_utterance := speech_utterance b; synth_queue := synth_queue b;
     alerts := alerts b; console_errors := console_errors b;
     reloads := S (reloads b) |}.

(** [speechSynthesis.speaking] *)
Definition synth_speaking (b : Browser) : bool :=
  match synth_queue b with [] => false | _ :: _ => true end.

(** [speechSynthesis.cancel()] empties the queue. *)
Definition synth_cancel (b : Browser) : Browser :=
  {| token := token b; stored_user := stored_user b; utterances := utterances b;
     speech_utterance := speech_utterance b; synth_queue := [];
     alerts := alerts b; console_errors := console_errors b; reloads := reloads b |}.

(** [speech.speak(text, onEndCallback)] *)
Definition speech_speak (text : PlainText) (onEndCallback : Callback)
    (b : Browser) : Browser :=
  let b := if synth_speaking b then synth_cancel b else b in
  let utterance := length (utterances b) in
  {| token := token b; stored_user := stored_user b;
     utterances := utterances b ++ [{| utt_text := text; utt_onend := onEndCallback |}];
     speech_utterance := Some utterance;
     synth_queue := synth_queue b ++ [utterance];
     alerts := alerts b; console_errors := console_errors b; reloads := reloads b |}.

(** [speech.cancel()] *)
Definition speech_cancel (b : Browser) : Browser := synth_cancel b.

(** The platform reports the end of utterance [u]: it leaves the queue if it
    was the one being spoken. *)
Definition synth_ended (u : nat) (b : Browser) : Browser :=
  {| token := token b; stored_user := stored_user b; utterances := utterances b;
     speech_utterance := speech_utterance b;
     synth_queue := match synth_queue b with
                    | v :: q => if bool_decide (v = u) then q else v :: q
                    | [] => []
                    end;
     alerts := alerts b; console_errors := console_errors b; reloads := reloads b |}.

(** A call through the [api] instance.  The request interceptor adds the
    bearer header when a token is stored; the request stays in flight with
    the continuation [k] until its reply is delivered. *)
Definition api (m : Method) (u : jsstring) (d : Body) (k : Cont) (s : Sys) : Sys :=
  let config :=
    {| method := m; url := u; body := d;
       authorization :=
         match token (browser s) with
         | Some t => if toBoolean t then Some (js "Bearer " ++ t) else None
         | None => None
         end |} in
  {| app := app s; browser := browser s; inflight := inflight s ++ [(config, k)] |}.

(** The response interceptor: a 401 drops the stored session and reloads. *)
Definition response_interceptor (r : Reply) (s : Sys) : Sys :=
  match r with
  | Rejected (Some 401%N) _ =>
      with_browser location_reload
        (with_browser removeItem_user (with_browser removeItem_token s))
  | _ => s
  end.

#[global] Arguments response_interceptor : simpl never.

(** ** The handlers of [App] *)

(** [loadConversations], up to its [await api.get('/conversations')]. *)
Definition loadConversations (after : After) (s : Sys) : Sys :=
  let s := update (setIsLoadingConversations true) s in
  api GET (js "/conversations") NoBody (K_loadConversations after) s.

(** The [finally] block of [handleSendMessage]. *)
Definition handleSendMessage_finally (s : Sys) : Sys :=
  update (setIsLoading false) s.

(** [handleSendMessage] from the construction of [assistantMessage] on. *)
Definition handleSendMessage_answer (answer : jsstring)
    (related_questions : option (list jsstring)) (s : Sys) : Sys :=
  let assistantMessage :=
    {| role := js "assistant"; content := answer;
       relatedQuestions := Some (or_empty related_questions) |} in
  let s := update (setMessages (fun prev => prev ++ [assistantMessage])) s in
  handleSendMessage_finally s.

Definition resume_after (after : After) (s : Sys) : Sys :=
  match after with
  | A_return => s
  | A_handleSendMessage answer related_questions =>
      handleSendMessage_answer answer related_questions s
  end.

(** [loadConversations] after its [await]; it catches every error, so the
    caller that awaits it always goes on. *)
Definition loadConversations_settled (after : After) (r : Reply) (s : Sys)
    : option Sys :=
  let finally s := resume_after after (update (setIsLoadingConversations false) s) in
  match r with
  | Resolved (D_conversations l) => Some (finally (update (setConversations l) s))
  | Resolved _ => None
  | Rejected _ _ =>
      Some (finally (with_browser (console_error (js "Error loading conversations:")) s))
  end.

(** [loadConversation(conversationId)] *)
Definition loadConversation (conversationId : JsId) (s : Sys) : Sys :=
  let s := update (setIsLoading true) s in
  api GET (js "/conversations/" ++ id_to_string conversationId) NoBody
      (K_loadConversation conversationId) s.

Definition history_message (msg : HistoryMessage) : Message :=
  {| role := hm_role msg;
     content := hm_content msg;
     relatedQuestions :=
       if bool_decide (hm_role msg = js "assistant") then Some [] else None |}.

Definition loadConversation_settled (conversationId : JsId) (r : Reply) (s : Sys)
    : option Sys :=
  let finally s := update (setIsLoading false) s in
  match r with
  | Resolved (D_messages msgs) =>
      let conversationMessages := map history_message msgs in
      let s := update (setMessages (fun _ => conversationMessages)) s in
      let s := update (setCurrentConversationId (Some conversationId)) s in
      let s := update (setSidebarOpen false) s in
      Some (finally s)
  | Resolved _ => None
  | Rejected _ _ =>
      let s := with_browser (console_error (js "Error loading conversation:")) s in
      let s := with_browser (alert (js "Failed to load conversation")) s in
      Some (finally s)
  end.

(** [createNewConversation] *)
Definition createNewConversation (s : Sys) : Sys :=
  api POST (js "/conversations/new") NoBody K_createNewConversation s.

Definition createNewConversation_settled (r : Reply) (s : Sys) : option Sys :=
  match r with
  | Resolved (D_conversation_id newConversationId) =>
      let s := update (setCurrentConversationId newConversationId) s in
      let s := update (setMessages (fun _ => [])) s in
      let s := update (setSidebarOpen false) s in
      Some (loadConversations A_return s)
  | Resolved _ => None
  | Rejected _ _ =>
      let s := with_browser (console_error (js "Error creating new conversation:")) s in
      let s := update (setCurrentConversationId None) s in
      let s := update (setMessages (fun _ => [])) s in
      Some (update (setSidebarOpen false) s)
  end.

(** [deleteConversation(conversationId)]; [confirmed] is the answer given to
    [window.confirm]. *)
Definition deleteConversation (conversationId : JsId) (confirmed : bool) (s : Sys)
    : Sys :=
  if negb confirmed then s
  else
    api DELETE (js "/conversations/" ++ id_to_string conversationId) NoBody
        (K_deleteConversation conversationId (currentConversationId (app s))) s.

Definition deleteConversation_settled (conversationId : JsId)
    (currentConversationId : option JsId) (r : Reply) (s : Sys) : option Sys :=
  match r with
  | Resolved _ =>
      let s :=
        if bool_decide (Some conversationId = currentConversationId) then
          let s := update (setMessages (fun _ => [])) s in
          update (setCurrentConversationId None) s
        else s in
      Some (loadConversations A_return s)
  | Rejected _ _ =>
      let s := with_browser (console_error (js "Error deleting conversation:")) s in
      Some (with_browser (alert (js "Failed to delete conversation")) s)
  end.

(** [handleLogout] *)
Definition handleLogout (s : Sys) : Sys :=
  api POST (js "/logout") NoBody K_handleLogout s.

Definition handleLogout_settled (r : Reply) (s : Sys) : option Sys :=
  let s :=
    match r with
    | Resolved _ => s
    | Rejected _ _ => with_browser (console_error (js "Logout error:")) s
    end in
  let s := with_browser removeItem_token s in
  let s := with_browser removeItem_user s in
  let s := update (setIsAuthenticated false) s in
  let s := update (setUser None) s in
  let s := update (setMessages (fun _ => [])) s in
  let s := update (setConversations []) s in
  let s := update (setCurrentConversationId None) s in
  Some (update (setShowAuthModal true) s).

(** [handleToggleSpeech(messageId, markdownText)] *)
Definition handleToggleSpeech (messageId : nat) (markdownText : jsstring) (s : Sys)
    : Sys :=
  if isSpeaking (app s) && bool_decide (speakingMessageId (app s) = Some messageId)
  then
    let s := with_browser speech_cancel s in
    let s := update (setIsSpeaking false) s in
    update (setSpeakingMessageId None) s
  else
    let plainText := toText markdownText in
    let s := update (setIsSpeaking true) s in
    let s := update (setSpeakingMessageId (Some messageId)) s in
    with_browser (speech_speak plainText Cb_handleToggleSpeech_onEnd) s.

(** The updater handed to [setMessages] at the start of a turn. *)
Definition append_user_message (queryOverride : option jsstring) (query : jsstring)
    (prevMessages : list Message) : list Message :=
  let updatedMessages := prevMessages in
  let updatedMessages :=
    if toBoolean queryOverride then
      let lastMessageIndex := (Z.of_nat (length updatedMessages) - 1)%Z in
      if (0 <=? lastMessageIndex)%Z then
        match updatedMessages !! Z.to_nat lastMessageIndex with
        | Some lastMessage =>
            if bool_decide (role lastMessage = js "assistant")
            then <[Z.to_nat lastMessageIndex :=
                     {| role := role lastMessage; content := content lastMessage;
                        relatedQuestions := Some [] |}]> updatedMessages
            else updatedMessages
        | None => updatedMessages
        end
      else updatedMessages
    else updatedMessages in
  let userMessage := {| role := js "user"; content := query; relatedQuestions := None |} in
  updatedMessages ++ [userMessage].

(** [const query = queryOverride || input.trim()] *)
Definition query_of (queryOverride : option jsstring) (st : AppState) : jsstring :=
  or_else queryOverride (trim (input st)).

(** [(!query && !selectedImage) || isLoading], the test before [return]. *)
Definition returns_early (queryOverride : option jsstring) (st : AppState) : bool :=
  (negb (toBoolean (query_of queryOverride st)) && negb (toBoolean (selectedImage st)))
  || isLoading st.

(** [handleSendMessage(queryOverride)], up to its [await api.post(...)]. *)
Definition handleSendMessage (queryOverride : option jsstring) (s : Sys) : Sys :=
  let st := app s in
  let query := query_of queryOverride st in
  if returns_early queryOverride st then s
  else
    let s := update (setMessages (append_user_message queryOverride query)) s in
    let s := update (setInput (fun _ => [])) s in
    let s := update (setIsLoading true) s in
    match selectedImage st with
    | Some image =>
        let formData := [(js "question", FormString query);
                         (js "image", FormFile image None)] in
        let formData :=
          match currentConversationId st with
          | Some c =>
              if toBoolean c
              then formData ++ [(js "conversation_id", FormString (id_to_string c))]
              else formData
          | None => formData
          end in
        api POST (js "/chat_vision") (Multipart formData)
            (K_handleSendMessage (selectedImage st) (currentConversationId st)) s
    | None =>
        let requestData :=
          {| question := query;
             conversation_id :=
               if toBoolean (currentConversationId st)
               then currentConversationId st else None |} in
        api POST (js "/chat") (Json requestData)
            (K_handleSendMessage (selectedImage st) (currentConversationId st)) s
    end.

Definition handleSendMessage_settled (selectedImage : option File)
    (currentConversationId : option JsId) (r : Reply) (s : Sys) : option Sys :=
  match r with
  | Resolved (D_chat answer related_questions conversation_id) =>
      let s :=
        if toBoolean selectedImage then
          let s := update (setSelectedImage None) s in
          update (setImagePreview None) s
        else s in
      if negb (toBoolean currentConversationId) && toBoolean conversation_id then
        let s := update (setCurrentConversationId conversation_id) s in
        Some (loadConversations (A_handleSendMessage answer related_questions) s)
      else Some (handleSendMessage_answer answer related_questions s)
  | Resolved _ => None
  | Rejected _ error =>
      let s := with_browser (console_error (js "Error fetching response:")) s in
      let errorMessage := or_else error (js "Sorry, something went wrong.") in
      let s :=
        update (setMessages (fun prev =>
          prev ++ [{| role := js "assistant"; content := errorMessage;
                      relatedQuestions := Some [] |}])) s in
      Some (handleSendMessage_finally s)
  end.

(** [handleDocumentUpload(file)] *)
Definition handleDocumentUpload (file : File) (s : Sys) : Sys :=
  let formData := [(js "file", FormFile file None)] in
  let s :=
    update (setMessages (fun prev =>
      prev ++ [{| role := js "system";
                  content := js "Uploading " ++ file_name file ++ js "...";
                  relatedQuestions := None |}])) s in
  api POST (js "/upload_document") (Multipart formData) K_handleDocumentUpload s.

Definition handleDocumentUpload_settled (r : Reply) (s : Sys) : option Sys :=
  let system_message c := {| role := js "system"; content := c; relatedQuestions := None |} in
  match r with
  | Resolved (D_message m) =>
      Some (update (setMessages (fun prev => prev ++ [system_message m])) s)
  | Resolved _ => None
  | Rejected _ error =>
      let errorMessage := or_else error (js "File upload failed.") in
      Some (update (setMessages (fun prev => prev ++ [system_message errorMessage])) s)
  end.

(** [handleFileChange(event)]; [file] is [event.target.files[0]]. *)
Definition handleFileChange (file : option File) (s : Sys) : Sys :=
  match file with
  | None => s
  | Some file =>
      let fileType := split_slash_0 (file_type file) in
      if bool_decide (fileType = js "image") then
        let s := update (setSelectedImage (Some file)) s in
        update (setImagePreview (Some (createObjectURL file))) s
      else handleDocumentUpload file s
  end.

(** [handleTranscription(blob)]; the recorded blob is a [File] without a
    name of its own. *)
Definition handleTranscription (blob : File) (s : Sys) : Sys :=
  let formData := [(js "audio", FormFile blob (Some (js "audio.webm")))] in
  api POST (js "/transcribe") (Multipart formData) K_handleTranscription s.

Definition handleTranscription_settled (r : Reply) (s : Sys) : option Sys :=
  match r with
  | Resolved (D_transcription t) =>
      Some (update (setInput (fun prev =>
              (if toBoolean prev then prev ++ js " " else []) ++ t)) s)
  | Resolved _ => None
  | Rejected _ _ =>
      let s := with_browser (console_error (js "Error transcribing audio:")) s in
      Some (with_browser (alert (js "Audio transcription failed.")) s)
  end.

(** ** The event loop *)

(** What can happen to the page: the user acts on a rendered control, the
    speech platform reports the end of an utterance, the recorder hands over
    a blob, or the reply of a request in flight arrives. *)
Inductive Event :=
| E_input (value : jsstring)
| E_send
| E_related (index k : nat)
| E_file (file : option File)
| E_discard_image
| E_toggle_speech (index : nat)
| E_utterance_end (u : nat)
| E_audio (blob : File)
| E_sidebar_toggle
| E_sidebar_close
| E_select (conversationId : JsId)
| E_new
| E_delete (conversationId : JsId) (confirmed : bool)
| E_logout
| E_reply (i : nat) (r : Reply).

(** [App] returns the conversation view only past both early returns. *)
Definition rendered (st : AppState) : bool :=
  negb (isCheckingAuth st) && isAuthenticated st.

(** [Sidebar] shows an entry per conversation unless the list is loading. *)
Definition listed (conversationId : JsId) (st : AppState) : bool :=
  negb (isLoadingConversations st)
  && bool_decide (conversationId ∈ map id (conversations st)).

Definition settle (k : Cont) (r : Reply) (s : Sys) : option Sys :=
  match k with
  | K_loadConversations after => loadConversations_settled after r s
  | K_loadConversation conversationId => loadConversation_settled conversationId r s
  | K_createNewConversation => createNewConversation_settled r s
  | K_deleteConversation conversationId currentConversationId =>
      deleteConversation_settled conversationId currentConversationId r s
  | K_handleLogout => handleLogout_settled r s
  | K_handleSendMessage selectedImage currentConversationId =>
      handleSendMessage_settled selectedImage currentConversationId r s
  | K_handleDocumentUpload => handleDocumentUpload_settled r s
  | K_handleTranscription => handleTranscription_settled r s
  end.

(** The reply of the [i]-th request in flight arrives: the request leaves
    the list, the response interceptor runs, then the continuation. *)
Definition deliver (i : nat) (r : Reply) (s : Sys) : option Sys :=
  match inflight s !! i with
  | Some (_, k) =>
      let s := {| app := app s; browser := browser s; inflight := delete i (inflight s) |} in
      settle k r (response_interceptor r s)
  | None => None
  end.

Definition when (b : bool) (s : Sys) : option Sys := if b then Some s else None.

(** One event.  [None]: the event cannot happen in this state (the control
    is not on the page, there is no such utterance or request, or the reply
    has another endpoint's shape). *)
Definition step (s : Sys) (e : Event) : option Sys :=
  let st := app s in
  match e with
  | E_input value =>
      when (rendered st) (update (setInput (fun _ => value)) s)
  | E_send =>
      when (rendered st) (handleSendMessage None s)
  | E_related index k =>
      match messages st !! index with
      | Some msg =>
          match relatedQuestions msg with
          | Some qs =>
              match qs !! k with
              | Some q =>
                  when (rendered st && bool_decide (role msg = js "assistant"))
                       (handleSendMessage (Some q) s)
              | None => None
              end
          | None => None
          end
      | None => None
      end
  | E_file file =>
      when (rendered st) (handleFileChange file s)
  | E_discard_image =>
      when (rendered st && toBoolean (imagePreview st))
           (update (setImagePreview None) (update (setSelectedImage None) s))
  | E_toggle_speech index =>
      match messages st !! index with
      | Some msg =>
          when (rendered st && bool_decide (role msg = js "assistant"))
               (handleToggleSpeech index (content msg) s)
      | None => None
      end
  | E_utterance_end u =>
      match utterances (browser s) !! u with
      | Some utterance =>
          Some (update (call (utt_onend utterance)) (with_browser (synth_ended u) s))
      | None => None
      end
  | E_audio blob => Some (handleTranscription blob s)
  | E_sidebar_toggle =>
      when (rendered st) (update (setSidebarOpen (negb (sidebarOpen st))) s)
  | E_sidebar_close =>
      when (rendered st) (update (setSidebarOpen false) s)
  | E_select conversationId =>
      when (rendered st && listed conversationId st) (loadConversation conversationId s)
  | E_new =>
      when (rendered st) (createNewConversation s)
  | E_delete conversationId confirmed =>
      when (rendered st && listed conversationId st)
           (deleteConversation conversationId confirmed s)
  | E_logout =>
      when (rendered st) (handleLogout s)
  | E_reply i r => deliver i r s
  end.

(** A sequence of events, oldest first. *)
Fixpoint run (s : Sys) (es : list Event) : option Sys :=
  match es with
  | [] => Some s
  | e :: es' =>
      match step s e with
      | Some s' => run s' es'
      | None => None
      end
  end.

(** ** Notions the properties are stated with *)

(** The two states of the speech controller, read off the React state. *)
Inductive SpeechState :=
| Silent
| Speaking (messageIndex : nat).

Definition speech_state (st : AppState) : option SpeechState :=
  match isSpeaking st, speakingMessageId st with
  | false, None => Some Silent
  | true, Some i => Some (Speaking i)
  | _, _ => None
  end.

(** A turn is in flight while its chat request, or the list refresh awaited
    inside [handleSendMessage], has not settled. *)
Definition is_turn (k : Cont) : bool :=
  match k with
  | K_handleSendMessage _ _ => true
  | K_loadConversations (A_handleSendMessage _ _) => true
  | _ => false
  end.

(** A conversation load is in flight while its history request is. *)
Definition is_load (k : Cont) : bool :=
  match k with
  | K_loadConversation _ => true
  | _ => false
  end.

Fixpoint count_conts (p : Cont -> bool) (l : list (Request * Cont)) : nat :=
  match l with
  | [] => 0
  | (_, k) :: l' => (if p k then 1 else 0) + count_conts p l'
  end.

Definition turns_in_flight (s : Sys) : nat := count_conts is_turn (inflight s).
Definition loads_in_flight (s : Sys) : nat := count_conts is_load (inflight s).

(** With no conversation load around, the busy flag counts the turns. *)
Definition single_flight (s : Sys) : Prop :=
  loads_in_flight s = 0
  /\ turns_in_flight s = (if isLoading (app s) then 1 else 0).

(** A load is in flight and the busy flag it set is still up. *)
Definition loading (s : Sys) : Prop :=
  isLoading (app s) = true /\ 0 < loads_in_flight s.

(** The event starts a conversation load. *)
Definition is_select (e : Event) : bool :=
  match e with
  | E_select _ => true
  | _ => false
  end.

(** The event is the reply to a turn or to a conversation load. *)
Definition settles_busy (s : Sys) (e : Event) : bool :=
  match e with
  | E_reply i _ =>
      match inflight s !! i with
      | Some (_, k) => is_turn k || is_load k
      | None => false
      end
  | _ => false
  end.

(** No event of the sequence, run from [s], is such a reply. *)
Fixpoint none_settles_busy (s : Sys) (es : list Event) : bool :=
  match es with
  | [] => true
  | e :: es' =>
      negb (settles_busy s e)
      && match step s e with
         | Some s' => none_settles_busy s' es'
         | None => true
         end
  end.

(** The active id passes the test the handlers apply to it,
    [if (currentConversationId)]: it is set, and it is neither the number 0
    nor the empty string. *)
Definition active_id_truthy (st : AppState) : bool :=
  toBoolean (currentConversationId st).

(** The payload carries a [conversation_id]. *)
Definition carries_conversation_id (d : Body) : bool :=
  match d with
  | NoBody => false
  | Json requestData => bool_decide (is_Some (conversation_id requestData))
  | Multipart formData => bool_decide (js "conversation_id" ∈ map fst formData)
  end.

(** The message list with the suggestions of its last message emptied when
    that message is an assistant message. *)
Fixpoint clear_trailing_suggestions (l : list Message) : list Message :=
  match l with
  | [] => []
  | m :: l' =>
      match l' with
      | [] =>
          if bool_decide (role m = js "assistant")
          then [{| role := role m; content := content m; relatedQuestions := Some [] |}]
          else [m]
      | _ :: _ => m :: clear_trailing_suggestions l'
      end
  end.

(** ** Sample states *)

Definition signed_in : AppState :=
  {| isAuthenticated := true;
     user := Some {| username := js "ada"; user_id := IdNum 7 |};
     showAuthModal := false; isCheckingAuth := false;
     messages := []; input := []; isLoading := false;
     selectedImage := None; imagePreview := None;
     isSpeaking := false; speakingMessageId := None;
     conversations :=
       [ {| id := IdStr (js "c1"); title := Some (js "Tort law"); message_count := Some 2%Z;
            updated_at := js "2024-05-02T10:00:00Z"; created_at := js "2024-05-01T09:00:00Z" |};
         {| id := IdStr (js "c2"); title := None; message_count := Some 0%Z;
            updated_at := js "2024-05-03T10:00:00Z"; created_at := js "2024-05-03T10:00:00Z" |} ];
     currentConversationId := None; sidebarOpen := false;
     isLoadingConversations := false |}.

Definition page : Browser :=
  {| token := Some (js "t0k3n"); stored_user := Some (js "{}");
     utterances := []; speech_utterance := None; synth_queue := [];
     alerts := []; console_errors := []; reloads := 0 |}.

Definition idle : Sys := {| app := signed_in; browser := page; inflight := [] |}.

Definition user_says (c : string) : Message :=
  {| role := js "user"; content := js c; relatedQuestions := None |}.

Definition assistant_says (c : string) (qs : list string) : Message :=
  {| role := js "assistant"; content := js c; relatedQuestions := Some (map js qs) |}.

(** Two answered turns, each answer with a suggestion under it. *)
Definition two_answers : Sys :=
  update (setMessages (fun _ =>
    [ user_says "What is tort law?";
      assistant_says "A tort is a civil wrong." ["What is negligence?"];
      user_says "And a contract?";
      assistant_says "An enforceable agreement." ["What is consideration?"] ])) idle.

(** The first answer was being read aloud when the second was toggled. *)
Definition reading_aloud : Sys :=
  handleToggleSpeech 3 (js "An enforceable agreement.")
    (handleToggleSpeech 1 (js "A tort is a civil wrong.") two_answers).

Definition clause_png : File :=
  {| file_name := js "clause.png"; file_type := js "image/png"; file_bytes := [137; 80; 78; 71]%N |}.

(** Conversation c1 is open. *)
Definition in_c1 : Sys :=
  update (setCurrentConversationId (Some (IdStr (js "c1")))) two_answers.

(** Its history is being fetched again; c1, then c2, is being deleted; the
    user is signing out. *)
Definition loading_c1 : Sys := loadConversation (IdStr (js "c1")) in_c1.
Definition deleting_c1 : Sys := deleteConversation (IdStr (js "c1")) true in_c1.
Definition deleting_c2 : Sys := deleteConversation (IdStr (js "c2")) true in_c1.
Definition logging_out : Sys := handleLogout in_c1.

(** The backend lists a conversation whose id is the number 0. *)
Definition zero_listed : Sys :=
  update (setConversations
    [ {| id := IdNum 0; title := Some (js "First"); message_count := Some 2%Z;
         updated_at := js "2024-05-02T10:00:00Z";
         created_at := js "2024-05-01T09:00:00Z" |} ]) idle.

(** An image is staged and a question typed. *)
Definition clause_typed : Sys :=
  update (setInput (fun _ => js "Explain this clause"))
    (handleFileChange (Some clause_png) idle).

(** The question is sent: a turn is in flight. *)
Definition image_turn : Sys := handleSendMessage None clause_typed.

(** ** Authentication *)

(** [JSON.stringify] and [JSON.parse] on the stored user.  [JSON_parse]
    gives [None] where [JSON.parse] throws and [Some None] for [null]. *)
Class JSON := {
  JSON_stringify : User -> jsstring;
  JSON_parse : jsstring -> option (option User)
}.

Definition API_BASE_URL : jsstring := js "http://localhost:5001".

(** The bodies posted with the global [axios], which has no interceptor. *)
Inductive Credentials :=
| LoginData (email password : jsstring)
| RegisterData (username email password : jsstring).

Record AxiosRequest := { axios_url : jsstring; axios_data : Credentials }.

(** [response.data] of [/verify], [/login] and [/register]. *)
Inductive AuthData :=
| D_verify (valid : bool)
| D_login (token username : jsstring) (user_id : JsId)
| D_register.

Inductive AuthReply :=
| AuthResolved (data : AuthData)
| AuthRejected (status : option N) (error : option jsstring).

(** What [handleLogin] and [handleRegister] return to the dialog. *)
Record AuthResult := { success : bool; error : option jsstring }.

Definition setItem_token (t : jsstring) (b : Browser) : Browser :=
  {| token := Some t; stored_user := stored_user b; utterances := utterances b;
     speech_utterance := speech_utterance b; synth_queue := synth_queue b;
     alerts := alerts b; console_errors := console_errors b; reloads := reloads b |}.

Definition setItem_user (u : jsstring) (b : Browser) : Browser :=
  {| token := token b; stored_user := Some u; utterances := utterances b;
     speech_utterance := speech_utterance b; synth_queue := synth_queue b;
     alerts := alerts b; console_errors := console_errors b; reloads := reloads b |}.

#[global] Instance User_eq_dec : EqDecision User.
Proof. solve_decision. Defined.

(** The header the request interceptor of [api] adds. *)
Definition bearer (b : Browser) : option jsstring :=
  match token b with
  | Some t => if toBoolean t then Some (js "Bearer " ++ t) else None
  | None => None
  end.

(** The [useState] initial values. *)
Definition initial_state : AppState :=
  {| isAuthenticated := false; user := None; showAuthModal := false;
     isCheckingAuth := true; messages := []; input := []; isLoading := false;
     selectedImage := None; imagePreview := None; isSpeaking := false;
     speakingMessageId := None; conversations := []; currentConversationId := None;
     sidebarOpen := false; isLoadingConversations := true |}.

(** A page load: [localStorage] is what survives. *)
Definition mount (b : Browser) : Sys :=
  {| app := initial_state;
     browser := {| token := token b; stored_user := stored_user b;
                   utterances := []; speech_utterance := None; synth_queue := [];
                   alerts := []; console_errors := []; reloads := 0 |};
     inflight := [] |}.

(** The effect on [isAuthenticated]: it runs after a render in which the
    value differs from the one of the render before, and calls
    [loadConversations] when the value is true. *)
Definition effect_isAuthenticated (before : bool) (s : Sys) : Sys :=
  if bool_decide (isAuthenticated (app s) = before) then s
  else if isAuthenticated (app s) then loadConversations A_return s
  else s.

(** [checkAuth], up to its [await api.get('/verify')]: the new state and,
    when a verification is requested, the request with the stored user the
    closure keeps. *)
Definition checkAuth (s : Sys) : Sys * option (Request * jsstring) :=
  let token := token (browser s) in
  let storedUser := stored_user (browser s) in
  if negb (toBoolean token) || negb (toBoolean storedUser) then
    let s := update (setIsCheckingAuth false) s in
    (update (setShowAuthModal true) s, None)
  else
    (s, Some ({| method := GET; url := js "/verify"; body := NoBody;
                 authorization := bearer (browser s) |}, default [] storedUser)).

(** [checkAuth] after its [await]. *)
Definition checkAuth_settled `{JSON} (storedUser : jsstring) (r : AuthReply) (s : Sys)
    : option Sys :=
  let before := isAuthenticated (app s) in
  let catch s :=
    let s := with_browser removeItem_token s in
    let s := with_browser removeItem_user s in
    update (setShowAuthModal true) s in
  let finally s := effect_isAuthenticated before (update (setIsCheckingAuth false) s) in
  match r with
  | AuthResolved (D_verify valid) =>
      if valid then
        let s := update (setIsAuthenticated true) s in
        match JSON_parse storedUser with
        | Some u => Some (finally (update (setUser u) s))
        | None => Some (finally (catch s))
        end
      else Some (finally (catch s))
  | AuthResolved _ => None
  | AuthRejected status error =>
      Some (finally (catch (response_interceptor (Rejected status error) s)))
  end.

(** [handleLogin(email, password)]: the request, then the code after the
    [await] with the value returned. *)
Definition handleLogin (email password : jsstring) : AxiosRequest :=
  {| axios_url := API_BASE_URL ++ js "/login"; axios_data := LoginData email password |}.

Definition handleLogin_settled `{JSON} (r : AuthReply) (s : Sys)
    : option (Sys * AuthResult) :=
  let before := isAuthenticated (app s) in
  match r with
  | AuthResolved (D_login token username user_id) =>
      let s := with_browser (setItem_token token) s in
      let s :=
        with_browser
          (setItem_user (JSON_stringify {| username := username; user_id := user_id |})) s in
      let s := update (setIsAuthenticated true) s in
      let s := update (setUser (Some {| username := username; user_id := user_id |})) s in
      let s := update (setShowAuthModal false) s in
      Some (effect_isAuthenticated before s, {| success := true; error := None |})
  | AuthResolved _ => None
  | AuthRejected _ error =>
      Some (s, {| success := false; error := Some (or_else error (js "Login failed")) |})
  end.

(** [handleRegister(username, email, password)]: the request, then what
    follows the [await]: the login it goes on with, or the value returned. *)
Definition handleRegister (username email password : jsstring) : AxiosRequest :=
  {| axios_url := API_BASE_URL ++ js "/register";
     axios_data := RegisterData username email password |}.

Definition handleRegister_settled (email password : jsstring) (r : AuthReply)
    : option (AxiosRequest + AuthResult) :=
  match r with
  | AuthResolved D_register => Some (inl (handleLogin email password))
  | AuthResolved _ => None
  | AuthRejected _ error =>
      Some (inr {| success := false;
                   error := Some (or_else error (js "Registration failed")) |})
  end.

(** The page with its sign-in dialog: an event of the conversation view
    (or a reply, a recording, an utterance end), or the reply to a login the
    dialog posted, directly or at the end of a registration. *)
Inductive PageEvent :=
| P_view (e : Event)
| P_login_reply (r : AuthReply).

Definition page_step `{JSON} (s : Sys) (pe : PageEvent) : option Sys :=
  match pe with
  | P_view e => step s e
  | P_login_reply r => fst <$> handleLogin_settled r s
  end.

Fixpoint page_run `{JSON} (s : Sys) (pes : list PageEvent) : option Sys :=
  match pes with
  | [] => Some s
  | pe :: pes' =>
      match page_step s pe with
      | Some s' => page_run s' pes'
      | None => None
      end
  end.

(** The reply of a login that resolves. *)
Definition signs_in (pe : PageEvent) : bool :=
  match pe with
  | P_login_reply (AuthResolved _) => true
  | _ => false
  end.

(** A codec that knows one user, for the examples. *)
Definition ada : User := {| username := js "ada"; user_id := IdNum 7 |}.

Definition ada_json : jsstring :=
  js "{" ++ [34%N] ++ js "username" ++ [34%N] ++ js ":" ++ [34%N] ++ js "ada"
  ++ [34%N] ++ js "," ++ [34%N] ++ js "user_id" ++ [34%N] ++ js ":7}".

Definition ada_codec : JSON :=
  {| JSON_stringify := fun u =>
       if bool_decide (u = ada) then ada_json else js "{}";
     JSON_parse := fun s =>
       if bool_decide (s = ada_json) then Some (Some ada) else None |}.

(** ** The sidebar *)

Module Sidebar.

(** The text [formatDate] returns, or the call of [toLocaleDateString] it
    ends with. *)
Inductive DateLabel :=
| Label (text : jsstring)
| toLocaleDateString (date : option Z) (now : Z).

(** [`${n}`] for an integer [n]. *)
Definition number_to_string (n : Z) : jsstring :=
  js (NilZero.string_of_int (Z.to_int n)).

(** [formatDate(dateString)], given the time values in milliseconds of
    [new Date()] and of [new Date(dateString)]; [None] is an invalid date,
    whose time value is [NaN], so that every comparison fails.  On integers
    below 2^53 [Math.floor(a / b)] is the floor division. *)
Definition formatDate (now : Z) (date : option Z) : DateLabel :=
  match date with
  | None => toLocaleDateString date now
  | Some d =>
      let diffTime := (now - d)%Z in
      let diffDays := (diffTime / (1000 * 60 * 60 * 24))%Z in
      let diffHours := (diffTime / (1000 * 60 * 60))%Z in
      let diffMinutes := (diffTime / (1000 * 60))%Z in
      if (diffMinutes <? 1)%Z then Label (js "Just now")
      else if (diffMinutes <? 60)%Z then Label (number_to_string diffMinutes ++ js "m ago")
      else if (diffHours <? 24)%Z then Label (number_to_string diffHours ++ js "h ago")
      else if (diffDays =? 1)%Z then Label (js "Yesterday")
      else if (diffDays <? 7)%Z then Label (number_to_string diffDays ++ js "d ago")
      else if (diffDays <? 30)%Z then
        let weeks := (diffDays / 7)%Z in
        Label (number_to_string weeks ++ js "w ago")
      else toLocaleDateString date now
  end.

(** An integer a double holds exactly: within 2^53 of zero. *)
Definition exact (n : Z) : bool := ((- 2 ^ 53 <=? n) && (n <=? 2 ^ 53))%Z.

(** [a + b] on numbers holding integers.  When both and their sum are
    exact, the sum of the doubles is that integer; otherwise the result is
    rounded, and no value is given here. *)
Definition add_number (a b : Z) : option Z :=
  if exact a && exact b && exact (a + b) then Some (a + b)%Z else None.

(** [getTotalMessages()] *)
Definition getTotalMessages (conversations : list ConversationSummary) : option Z :=
  fold_left (fun total conv =>
               match total with
               | Some t => add_number t (default 0%Z (message_count conv))
               | None => None
               end)
            conversations (Some 0%Z).

(** [handleDeleteClick(e, conversationId)]: the sidebar asks first, then
    [deleteConversation] asks again. *)
Definition handleDeleteClick (conversationId : JsId) (confirmed again : bool) (s : Sys)
    : Sys :=
  if confirmed then deleteConversation conversationId again s else s.

End Sidebar.

(** ** More notions *)

(** The message counts of a list, added as integers. *)
Definition count_sum (l : list ConversationSummary) : Z :=
  foldr (fun conv total => (default 0 (message_count conv) + total)%Z) 0%Z l.


(** Roles and contents of a message list. *)
Definition transcript (l : list Message) : list (jsstring * jsstring) :=
  map (fun m => (role m, content m)) l.

(** The reply answers a request whose continuation replaces the message
    list: a conversation load, a new conversation, a delete, a logout. *)
Definition replaces_messages (s : Sys) (e : Event) : bool :=
  match e with
  | E_reply i _ =>
      match inflight s !! i with
      | Some (_, K_loadConversation _) => true
      | Some (_, K_createNewConversation) => true
      | Some (_, K_deleteConversation _ _) => true
      | Some (_, K_handleLogout) => true
      | _ => false
      end
  | _ => false
  end.

(** No event of the sequence, run from [s], is such a reply. *)
Fixpoint none_replaces_messages (s : Sys) (es : list Event) : bool :=
  match es with
  | [] => true
  | e :: es' =>
      negb (replaces_messages s e)
      && match step s e with
         | Some s' => none_replaces_messages s' es'
         | None => true
         end
  end.

(** The content type names an image: it is [image] or begins with
    [image/]. *)
Definition image_type (t : jsstring) : Prop :=
  t = js "image" \/ exists rest, t = js "image/" ++ rest.

(** [error.response?.status === 401] *)
Definition is_unauthorized (r : Reply) : bool :=
  match r with
  | Rejected (Some status) _ => (status =? 401)%N
  | _ => false
  end.

(** The controls of the conversation view. *)
Definition is_control (e : Event) : bool :=
  match e with
  | E_reply _ _ | E_audio _ | E_utterance_end _ => false
  | _ => true
  end.

(** The speech state is one of the two the controller knows, and the
    synthesizer holds at most one utterance, an existing one. *)
Definition speech_consistent (s : Sys) : Prop :=
  is_Some (speech_state (app s))
  /\ length (synth_queue (browser s)) <= 1
  /\ Forall (fun u => u < length (utterances (browser s))) (synth_queue (browser s)).

(** The preview shown is the object URL of the staged image, and there is
    one exactly when an image is staged. *)
Definition preview_matches (st : AppState) : Prop :=
  imagePreview st = createObjectURL <$> selectedImage st.

(** A document was picked during the first answer. *)
Definition contract_pdf : File :=
  {| file_name := js "contract.pdf"; file_type := js "application/pdf";
     file_bytes := [37; 80; 68; 70]%N |}.

Definition uploading : Sys := handleFileChange (Some contract_pdf) two_answers.

Definition recording : File :=
  {| file_name := []; file_type := js "audio/webm"; file_bytes := [26; 69]%N |}.

(** A question typed while a recording is transcribed. *)
Definition transcribing : Sys :=
  handleTranscription recording (update (setInput (fun _ => js "What is")) idle).


Definition creating : Sys := createNewConversation in_c1.

(** A visitor with nothing stored. *)
Definition visitor : Browser :=
  {| token := None; stored_user := None; utterances := []; speech_utterance := None;
     synth_queue := []; alerts := []; console_errors := []; reloads := 0 |}.

(** * Properties *)

(** ** Sanity checks of the embedding *)

Example trim_example : trim (js "  tort law 	") = js "tort law".
Proof. reflexivity. Qed.

Example id_to_string_example : id_to_string (IdNum 42) = js "42".
Proof. reflexivity. Qed.

Example image_is_staged :
  selectedImage (app (handleFileChange (Some clause_png) idle)) = Some clause_png.
Proof. reflexivity. Qed.

(** ** Bookkeeping of the requests in flight *)

Lemma count_conts_app p l1 l2 :
  count_conts p (l1 ++ l2) = count_conts p l1 + count_conts p l2.
Proof.
  induction l1 as [|[r k] l1 IH]; simpl; [done|]. rewrite IH. lia.
Qed.

Lemma count_conts_delete p (l : list (Request * Cont)) i r k :
  l !! i = Some (r, k) ->
  count_conts p l = (if p k then 1 else 0) + count_conts p (delete i l).
Proof.
  revert i. induction l as [|[r' k'] l IH]; intros [|i] H; simpl in *; try done.
  - by inversion H.
  - rewrite (IH i H). lia.
Qed.

(** The response interceptor touches the stored session only. *)
Lemma response_interceptor_frame r s :
  app (response_interceptor r s) = app s
  /\ inflight (response_interceptor r s) = inflight s
  /\ utterances (browser (response_interceptor r s)) = utterances (browser s)
  /\ alerts (browser (response_interceptor r s)) = alerts (browser s).
Proof. unfold response_interceptor. by repeat case_match. Qed.

(** A delivery runs the continuation of the request it answers. *)
Lemma deliver_inv i r s s' :
  deliver i r s = Some s' ->
  exists q k s1,
    inflight s !! i = Some (q, k)
    /\ app s1 = app s
    /\ inflight s1 = delete i (inflight s)
    /\ settle k r s1 = Some s'.
Proof.
  unfold deliver. destruct (inflight s !! i) as [[q k]|]; [|done].
  intros H.
  destruct (response_interceptor_frame r
    {| app := app s; browser := browser s; inflight := delete i (inflight s) |})
    as (Ha & Hi & _).
  exists q, k, (response_interceptor r
    {| app := app s; browser := browser s; inflight := delete i (inflight s) |}).
  auto.
Qed.

Lemma isLoading_call cb st : isLoading (call cb st) = isLoading st.
Proof. by destruct cb. Qed.

Ltac unfold_handlers :=
  unfold when, handleSendMessage, handleFileChange, handleDocumentUpload,
    handleToggleSpeech, handleTranscription, loadConversation,
    createNewConversation, deleteConversation, handleLogout,
    loadConversations_settled, loadConversation_settled,
    createNewConversation_settled, deleteConversation_settled,
    handleLogout_settled, handleSendMessage_settled,
    handleDocumentUpload_settled, handleTranscription_settled,
    resume_after, handleSendMessage_answer, handleSendMessage_finally,
    loadConversations in *.

(** From [step s e = Some s'] to the handler that ran. *)
Ltac inv_step H :=
  unfold when in H;
  repeat match type of H with
         | match ?x with _ => _ end = Some _ => destruct x eqn:?; try discriminate H
         end;
  injection H as <-.

(** ** Single flight of turns *)

Lemma step_single_flight s e s' :
  single_flight s -> is_select e = false -> step s e = Some s' -> single_flight s'.
Proof.
  unfold single_flight, loads_in_flight, turns_in_flight.
  intros [Hl Ht] He Hs. destruct e; try discriminate He; simpl in Hs.
  14: { apply deliver_inv in Hs as (q & k & s1 & Hi & Ha & Hf & Hs).
        pose proof (count_conts_delete is_load _ _ _ _ Hi) as Dl.
        pose proof (count_conts_delete is_turn _ _ _ _ Hi) as Dt.
        rewrite <- Hf in Dl, Dt. rewrite <- Ha in Ht. clear Hf Ha Hi.
        destruct k as [[]| | | | | | |], r as [[]|]; simpl in Hs; unfold_handlers;
          repeat case_match; simplify_eq; simpl in *;
          rewrite ?count_conts_app; simpl; split; try lia;
          destruct (isLoading (app s1)); simpl in *; lia. }
  all: inv_step Hs; unfold_handlers; unfold returns_early;
    destruct (isLoading (app s)) eqn:EL; rewrite ?orb_true_r, ?orb_false_r; simpl;
    rewrite ?isLoading_call, ?EL; repeat case_match; simpl in *;
    rewrite ?count_conts_app, ?EL; simpl; try congruence; split; lia.
Qed.

Lemma run_single_flight es : forall s s',
  single_flight s -> forallb (fun e => negb (is_select e)) es = true ->
  run s es = Some s' -> single_flight s'.
Proof.
  induction es as [|e es IH]; simpl; intros s s' Hinv Hes Hrun.
  - by injection Hrun as <-.
  - apply andb_prop in Hes as [He Hes].
    destruct (step s e) as [s1|] eqn:Hs; [|done].
    apply (IH s1 s'); [|done..].
    eapply step_single_flight; [done| |done]. by destruct (is_select e).
Qed.

(** A busy page ignores a submission, whatever its text. *)
Lemma handleSendMessage_busy queryOverride s :
  isLoading (app s) = true -> handleSendMessage queryOverride s = s.
Proof.
  intros H. unfold handleSendMessage, returns_early. by rewrite H, orb_true_r.
Qed.

(** C1, as the code has it.  Start from a page with no turn and no
    conversation load in flight and let anything happen except the
    selection of a conversation:
    submissions (typed or by suggestion), typing, attachments, speech, other
    requests, and replies in any order.  Then at most one turn is in flight
    at any time, the busy flag is set exactly while one is, and while one is
    a call of [handleSendMessage] returns the very state it was given: no
    message appended, input unchanged, no request added. *)
Theorem one_turn_in_flight (s0 : Sys) (es : list Event) (s : Sys) :
  isLoading (app s0) = false ->
  turns_in_flight s0 = 0 ->
  loads_in_flight s0 = 0 ->
  forallb (fun e => negb (is_select e)) es = true ->
  run s0 es = Some s ->
  turns_in_flight s <= 1
  /\ (turns_in_flight s = 1 <-> isLoading (app s) = true)
  /\ (0 < turns_in_flight s ->
      forall queryOverride, handleSendMessage queryOverride s = s).
Proof.
  intros HL HT HLo Hes Hrun.
  assert (single_flight s) as [_ Hinv].
  { eapply run_single_flight; [|done..]. split; [done|]. by rewrite HL. }
  destruct (isLoading (app s)) eqn:E; rewrite Hinv.
  - repeat split; auto. intros _ q. by apply handleSendMessage_busy.
  - repeat split; try lia; try done.
Qed.

(** A page with a question typed, sent, and sent again while in flight. *)
Lemma one_turn_in_flight_witness :
  exists s,
    run idle [E_input (js "What is tort law?"); E_send; E_input (js "again"); E_send]
      = Some s
    /\ turns_in_flight s <= 1
    /\ (turns_in_flight s = 1 <-> isLoading (app s) = true)
    /\ (0 < turns_in_flight s ->
        forall queryOverride, handleSendMessage queryOverride s = s).
Proof.
  eexists. split; [reflexivity|].
  apply (one_turn_in_flight idle
    [E_input (js "What is tort law?"); E_send; E_input (js "again"); E_send]);
    reflexivity.
Defined.

(** C1 as stated fails: a question is sent, a conversation is selected
    while the turn is in flight, and its history arrives, which lowers the
    flag the turn raised.  The turn has not returned, yet the question
    typed next is accepted: a message is appended, the input emptied, a
    second request built, and two turns are in flight. *)
Lemma submit_accepted_mid_turn :
  exists s s',
    run idle [E_input (js "What is tort law?"); E_send; E_select (IdStr (js "c1"));
              E_reply 1 (Resolved (D_messages [])); E_input (js "And a contract?")]
      = Some s
    /\ turns_in_flight s = 1
    /\ step s E_send = Some s'
    /\ messages (app s') = messages (app s) ++ [user_says "And a contract?"]
    /\ input (app s') <> input (app s)
    /\ length (inflight s') = S (length (inflight s))
    /\ turns_in_flight s' = 2.
Proof.
  eexists _, _. split; [vm_compute; reflexivity|].
  split; [vm_compute; reflexivity|]. split; [vm_compute; reflexivity|].
  split; [vm_compute; reflexivity|]. split; [vm_compute; discriminate|].
  split; vm_compute; reflexivity.
Qed.

(** ** Submissions during a conversation load *)

Lemma loadConversation_loading conversationId s :
  loading (loadConversation conversationId s).
Proof.
  unfold loading, loads_in_flight, loadConversation. simpl.
  rewrite count_conts_app. simpl. split; [done | lia].
Qed.

Lemma step_loading s e s' :
  loading s -> settles_busy s e = false -> step s e = Some s' -> loading s'.
Proof.
  unfold loading, loads_in_flight.
  intros [HL Hn] He Hs. destruct e; simpl in Hs.
  15: { simpl in He.
        apply deliver_inv in Hs as (q & k & s1 & Hi & Ha & Hf & Hs).
        rewrite Hi in He. apply orb_false_elim in He as [Ht Hl].
        pose proof (count_conts_delete is_load _ _ _ _ Hi) as Dl.
        rewrite Hl, <- Hf in Dl. rewrite <- Ha in HL. clear Hf Ha Hi.
        destruct k as [[]| | | | | | |], r as [[]|]; try discriminate;
          simpl in Hs; unfold_handlers; repeat case_match; simplify_eq; simpl in *;
          rewrite ?count_conts_app; simpl; split; try done; lia. }
  all: inv_step Hs; unfold_handlers; unfold returns_early;
    rewrite ?HL, ?orb_true_r; simpl; rewrite ?isLoading_call, ?HL;
    repeat case_match; simpl in *; rewrite ?count_conts_app; simpl;
    split; try done; lia.
Qed.

Lemma run_loading es : forall s s',
  loading s -> none_settles_busy s es = true -> run s es = Some s' -> loading s'.
Proof.
  induction es as [|e es IH]; simpl; intros s s' Hinv Hes Hrun.
  - by injection Hrun as <-.
  - apply andb_prop in Hes as [He Hes].
    destruct (step s e) as [s1|] eqn:Hs; [|done].
    apply (IH s1 s'); [|done..].
    eapply step_loading; [done| |done]. by destruct (settles_busy s e).
Qed.

(** C10, as the code has it.  From the moment [loadConversation] starts a
    history fetch and for as long as no reply to a turn or to a conversation
    load has arrived, the fetch is in flight, the busy flag is up, and
    [handleSendMessage] returns the state it was given.  (The flag is one
    boolean: the first such reply lowers it, also when it answers another
    request than this fetch.) *)
Theorem submit_ignored_until_first_reply (s0 : Sys) (conversationId : JsId)
    (es : list Event) (s : Sys) :
  none_settles_busy (loadConversation conversationId s0) es = true ->
  run (loadConversation conversationId s0) es = Some s ->
  0 < loads_in_flight s
  /\ isLoading (app s) = true
  /\ forall queryOverride, handleSendMessage queryOverride s = s.
Proof.
  intros Hes Hrun.
  destruct (run_loading es _ s (loadConversation_loading conversationId s0) Hes Hrun)
    as [HL Hn].
  repeat split; [done..|]. intros q. by apply handleSendMessage_busy.
Qed.

Lemma submit_ignored_until_first_reply_witness :
  exists s,
    run (loadConversation (IdStr (js "c1")) idle)
        [E_input (js "hello"); E_send; E_file (Some clause_png); E_send] = Some s
    /\ 0 < loads_in_flight s
    /\ isLoading (app s) = true
    /\ forall queryOverride, handleSendMessage queryOverride s = s.
Proof.
  eexists. split; [reflexivity|].
  apply (submit_ignored_until_first_reply idle (IdStr (js "c1"))
    [E_input (js "hello"); E_send; E_file (Some clause_png); E_send]);
    reflexivity.
Defined.

(** C10 as stated fails: two conversations are selected one after the
    other; the history of the first arrives and lowers the shared flag while
    the fetch of the second is still in flight; the question typed next is
    accepted. *)
Lemma submit_accepted_during_load :
  exists s s',
    run idle [E_select (IdStr (js "c1")); E_select (IdStr (js "c2"));
              E_reply 0 (Resolved (D_messages [])); E_input (js "hello")] = Some s
    /\ loads_in_flight s = 1
    /\ step s E_send = Some s'
    /\ messages (app s') = messages (app s) ++ [user_says "hello"]
    /\ input (app s') <> input (app s)
    /\ turns_in_flight s' = 1.
Proof.
  eexists _, _. split; [vm_compute; reflexivity|].
  split; [vm_compute; reflexivity|]. split; [vm_compute; reflexivity|].
  split; [vm_compute; reflexivity|]. split; [vm_compute; discriminate|].
  vm_compute; reflexivity.
Qed.

(** ** The speech controller *)

Lemma speech_state_call cb st : speech_state (call cb st) = Some Silent.
Proof. by destruct cb. Qed.

(** C2, as the code has it.  The completion signal of an utterance, whenever
    the platform delivers it and whichever utterance it belongs to, puts the
    controller in [Silent]: the callback compares nothing with the message
    that is active.  A late signal of a superseded utterance therefore
    clears the [Speaking] state of the newer one; it never sets [Speaking]
    for any index. *)
Theorem completion_signal_silences (s : Sys) (u : nat) (utterance : Utterance) :
  utterances (browser s) !! u = Some utterance ->
  exists s',
    step s (E_utterance_end u) = Some s'
    /\ speech_state (app s') = Some Silent.
Proof.
  intros H. simpl. rewrite H. eexists. split; [done|].
  simpl. apply speech_state_call.
Qed.

Lemma completion_signal_silences_witness :
  speech_state (app reading_aloud) = Some (Speaking 3)
  /\ exists s',
       step reading_aloud (E_utterance_end 0) = Some s'
       /\ speech_state (app s') = Some Silent.
Proof.
  split; [reflexivity|].
  apply (completion_signal_silences reading_aloud 0
           {| utt_text := toText (js "A tort is a civil wrong.");
              utt_onend := Cb_handleToggleSpeech_onEnd |}).
  reflexivity.
Defined.

(** C2 as stated fails: message 1 is read aloud, then message 3, which
    cancels the first utterance and makes the state [Speaking 3]; when the
    completion signal of the first utterance arrives after that, the state
    becomes [Silent] although the second utterance is still in the queue. *)
Lemma stale_completion_clears_newer_speaking :
  exists s s',
    run two_answers [E_toggle_speech 1; E_toggle_speech 3] = Some s
    /\ speech_state (app s) = Some (Speaking 3)
    /\ synth_queue (browser s) = [1]
    /\ step s (E_utterance_end 0) = Some s'
    /\ speech_state (app s') <> Some (Speaking 3)
    /\ synth_queue (browser s') = [1].
Proof.
  eexists _, _. split; [vm_compute; reflexivity|].
  split; [vm_compute; reflexivity|]. split; [vm_compute; reflexivity|].
  split; [vm_compute; reflexivity|]. split; [vm_compute; discriminate|].
  vm_compute; reflexivity.
Qed.

(** ** Follow-up suggestions *)

Lemma clear_trailing_suggestions_snoc l m :
  clear_trailing_suggestions (l ++ [m]) =
  l ++ [if bool_decide (role m = js "assistant")
        then {| role := role m; content := content m; relatedQuestions := Some [] |}
        else m].
Proof.
  induction l as [|a l IH]; simpl.
  - by case_bool_decide.
  - rewrite <- IH. by destruct l.
Qed.

(** The index update of the source and the structural definition agree. *)
Lemma append_user_message_spec queryOverride query l :
  append_user_message queryOverride query l =
  (if toBoolean queryOverride then clear_trailing_suggestions l else l)
  ++ [{| role := js "user"; content := query; relatedQuestions := None |}].
Proof.
  unfold append_user_message. destruct (toBoolean queryOverride); [|done].
  f_equal. destruct l as [|a l] using rev_ind; [done|].
  rewrite clear_trailing_suggestions_snoc, length_app. simpl.
  replace (Z.of_nat (length l + 1) - 1)%Z with (Z.of_nat (length l)) by lia.
  rewrite Nat2Z.id, list_lookup_middle by done.
  destruct (0 <=? Z.of_nat (length l))%Z eqn:E; [|apply Z.leb_gt in E; lia].
  case_bool_decide; [|done].
  rewrite insert_app_r_alt by done. by rewrite Nat.sub_diag.
Qed.

(** C3, as the code has it.  When [handleSendMessage] accepts a submission
    made with a non-empty override text, the new message list is the old
    one with the suggestions of its last message emptied if that message is
    an assistant message (whether or not the suggestion was taken from it),
    followed by the user message; no other message changes.  Without an
    override (or with an empty one) the new list is the old one, untouched,
    followed by the user message. *)
Theorem suggestions_of_last_message_cleared (queryOverride : option jsstring)
    (s : Sys) :
  returns_early queryOverride (app s) = false ->
  messages (app (handleSendMessage queryOverride s)) =
  (if toBoolean queryOverride
   then clear_trailing_suggestions (messages (app s))
   else messages (app s))
  ++ [{| role := js "user"; content := query_of queryOverride (app s);
         relatedQuestions := None |}].
Proof.
  intros H. unfold handleSendMessage. rewrite H.
  destruct (selectedImage (app s)); simpl; apply append_user_message_spec.
Qed.

Lemma suggestions_of_last_message_cleared_witness :
  messages (app (handleSendMessage (Some (js "What is consideration?")) two_answers)) =
  [ user_says "What is tort law?";
    assistant_says "A tort is a civil wrong." ["What is negligence?"];
    user_says "And a contract?";
    assistant_says "An enforceable agreement." [];
    user_says "What is consideration?" ].
Proof.
  rewrite (suggestions_of_last_message_cleared (Some (js "What is consideration?"))
             two_answers); reflexivity.
Defined.

(** C3 as stated fails: the suggestion under the first answer (message 1)
    is clicked while a later answer ends the list; the suggestions of the
    message the click came from are still there afterwards, those of the
    last message are gone. *)
Lemma suggestion_of_earlier_answer_stays :
  exists s',
    step two_answers (E_related 1 0) = Some s'
    /\ messages (app s') !! 1 =
       Some (assistant_says "A tort is a civil wrong." ["What is negligence?"])
    /\ messages (app s') !! 3 = Some (assistant_says "An enforceable agreement." [])
    /\ messages (app s') !! 4 = Some (user_says "What is negligence?").
Proof.
  eexists. split; [vm_compute; reflexivity|].
  split; [vm_compute; reflexivity|]. split; vm_compute; reflexivity.
Qed.

(** ** Replies *)

(** The state a continuation starts from when reply [r] answers request [i]. *)
Lemma step_reply s i q k r :
  inflight s !! i = Some (q, k) ->
  exists s1,
    step s (E_reply i r) = settle k r s1
    /\ app s1 = app s
    /\ inflight s1 = delete i (inflight s)
    /\ alerts (browser s1) = alerts (browser s).
Proof.
  intros H. simpl. unfold deliver. rewrite H.
  destruct (response_interceptor_frame r
    {| app := app s; browser := browser s; inflight := delete i (inflight s) |})
    as (Ha & Hi & _ & Hal).
  eexists. split; [reflexivity|]. auto.
Qed.

(** ** A failed turn *)

(** C4. When the request of a turn is rejected, the reply appends exactly
    one assistant message, whose content is the error text of the server
    if it sent a non-empty one and the fallback sentence otherwise, with an
    empty list of suggestions; the staged image and its preview stay as
    they are; the busy flag is lowered and the turn is no longer in
    flight. *)
Theorem failed_turn_reported_inline (s : Sys) (i : nat) (q : Request)
    (image : option File) (conversationId : option JsId)
    (status : option N) (error : option jsstring) :
  inflight s !! i = Some (q, K_handleSendMessage image conversationId) ->
  exists s',
    step s (E_reply i (Rejected status error)) = Some s'
    /\ messages (app s') =
       messages (app s)
       ++ [{| role := js "assistant";
              content := or_else error (js "Sorry, something went wrong.");
              relatedQuestions := Some [] |}]
    /\ selectedImage (app s') = selectedImage (app s)
    /\ imagePreview (app s') = imagePreview (app s)
    /\ isLoading (app s') = false
    /\ inflight s' = delete i (inflight s).
Proof.
  intros H.
  destruct (step_reply s i q _ (Rejected status error) H) as (s1 & Hs & Ha & Hi & _).
  rewrite Hs. simpl. eexists. split; [reflexivity|]. simpl.
  by rewrite Ha, Hi.
Qed.

Lemma failed_turn_reported_inline_witness :
  inflight image_turn !! 0 =
    Some ({| method := POST; url := js "/chat_vision";
             body := Multipart [(js "question", FormString (js "Explain this clause"));
                                (js "image", FormFile clause_png None)];
             authorization := Some (js "Bearer t0k3n") |},
          K_handleSendMessage (Some clause_png) None)
  /\ exists s',
       step image_turn (E_reply 0 (Rejected (Some 500%N) (Some (js "Model unavailable"))))
         = Some s'
       /\ messages (app s') =
          messages (app image_turn)
          ++ [{| role := js "assistant";
                 content := or_else (Some (js "Model unavailable"))
                                    (js "Sorry, something went wrong.");
                 relatedQuestions := Some [] |}]
       /\ selectedImage (app s') = selectedImage (app image_turn)
       /\ imagePreview (app s') = imagePreview (app image_turn)
       /\ isLoading (app s') = false
       /\ inflight s' = delete 0 (inflight image_turn).
Proof.
  split; [reflexivity|].
  eapply (failed_turn_reported_inline image_turn 0). reflexivity.
Defined.

(** ** Routing of the request of a turn *)

(** C5, as the code has it.  An accepted submission puts exactly one
    request in flight, a POST.  With an image staged it goes to
    [/chat_vision] as a multipart payload with the fields [question] and
    [image]; otherwise it goes to [/chat] with the object [{question}].  In
    both cases the payload carries [conversation_id], with the current id,
    if and only if the active id is truthy when the submission is made:
    set, and neither 0 nor the empty string. *)
Theorem request_routed_by_attachment (queryOverride : option jsstring) (s : Sys) :
  returns_early queryOverride (app s) = false ->
  exists req,
    inflight (handleSendMessage queryOverride s) =
      inflight s
      ++ [(req, K_handleSendMessage (selectedImage (app s))
                                    (currentConversationId (app s)))]
    /\ method req = POST
    /\ carries_conversation_id (body req) = active_id_truthy (app s)
    /\ match selectedImage (app s) with
       | Some image =>
           url req = js "/chat_vision"
           /\ body req =
              Multipart
                ([(js "question", FormString (query_of queryOverride (app s)));
                  (js "image", FormFile image None)]
                 ++ (if active_id_truthy (app s)
                     then [(js "conversation_id",
                            FormString (from_option id_to_string []
                                          (currentConversationId (app s))))]
                     else []))
       | None =>
           url req = js "/chat"
           /\ body req =
              Json {| question := query_of queryOverride (app s);
                      conversation_id :=
                        if active_id_truthy (app s)
                        then currentConversationId (app s) else None |}
       end.
Proof.
  intros H. unfold handleSendMessage, active_id_truthy. rewrite H.
  destruct (selectedImage (app s)) as [image|];
    destruct (currentConversationId (app s)) as [c|]; simpl;
    try change (toBoolean (Some c)) with (toBoolean c);
    try change (toBoolean (@None JsId)) with false;
    try destruct (toBoolean c) eqn:Ec; simpl;
    eexists; (split; [reflexivity|]); simpl; repeat split.
Qed.

(** The spec's example: an image is staged, so the question goes to
    [/chat_vision] as multipart, without [conversation_id] since no
    conversation is active. *)
Lemma request_routed_by_attachment_witness :
  returns_early None (app clause_typed) = false
  /\ exists req,
       inflight (handleSendMessage None clause_typed) =
         inflight clause_typed
         ++ [(req, K_handleSendMessage (selectedImage (app clause_typed))
                                       (currentConversationId (app clause_typed)))]
       /\ method req = POST
       /\ carries_conversation_id (body req) = active_id_truthy (app clause_typed)
       /\ match selectedImage (app clause_typed) with
          | Some image =>
              url req = js "/chat_vision"
              /\ body req =
                 Multipart
                   ([(js "question", FormString (query_of None (app clause_typed)));
                     (js "image", FormFile image None)]
                    ++ (if active_id_truthy (app clause_typed)
                        then [(js "conversation_id",
                               FormString (from_option id_to_string []
                                             (currentConversationId (app clause_typed))))]
                        else []))
          | None =>
              url req = js "/chat"
              /\ body req =
                 Json {| question := query_of None (app clause_typed);
                         conversation_id :=
                           if active_id_truthy (app clause_typed)
                           then currentConversationId (app clause_typed) else None |}
          end.
Proof.
  split; [reflexivity|].
  apply (request_routed_by_attachment None clause_typed). reflexivity.
Defined.

(** C5 as stated fails: the backend lists a conversation whose id is the
    number 0; it is selected and its history loaded, so it is the active
    conversation; the question sent next goes to [/chat] without
    [conversation_id]. *)
Lemma active_conversation_zero_not_sent :
  exists s s' req,
    run zero_listed [E_select (IdNum 0); E_reply 0 (Resolved (D_messages []));
                     E_input (js "What is tort law?")] = Some s
    /\ currentConversationId (app s) = Some (IdNum 0)
    /\ listed (IdNum 0) (app s) = true
    /\ step s E_send = Some s'
    /\ inflight s' = [(req, K_handleSendMessage None (Some (IdNum 0)))]
    /\ url req = js "/chat"
    /\ body req = Json {| question := js "What is tort law?"; conversation_id := None |}
    /\ carries_conversation_id (body req) = false.
Proof.
  eexists _, _, _. split; [vm_compute; reflexivity|].
  split; [vm_compute; reflexivity|].
  split; [vm_compute; reflexivity|].
  split; [vm_compute; reflexivity|]. split; [reflexivity|].
  split; [reflexivity|]. split; reflexivity.
Qed.

Example text_turn_in_conversation :
  map fst (inflight (handleSendMessage (Some (js "What is negligence?"))
                       (update (setCurrentConversationId (Some (IdStr (js "c1")))) idle))) =
  [ {| method := POST; url := js "/chat";
       body := Json {| question := js "What is negligence?";
                       conversation_id := Some (IdStr (js "c1")) |};
       authorization := Some (js "Bearer t0k3n") |} ].
Proof. reflexivity. Qed.

(** ** Selecting a conversation *)

Lemma history_message_fields msgs :
  map (fun m => (role m, content m)) (map history_message msgs) =
  map (fun h => (hm_role h, hm_content h)) msgs.
Proof. induction msgs as [|h msgs IH]; simpl; [done | by rewrite IH]. Qed.

(** C6. [loadConversation] itself leaves the message list and the active
    id alone and puts the history request in flight.  When that request is
    rejected, the reply leaves both as it finds them and raises the alert
    "Failed to load conversation".  When it resolves, the message list
    becomes the fetched history, message by message with the same roles and
    contents and nothing kept of the old list, and the active id becomes
    the selected one. *)
Theorem select_replaces_or_keeps (conversationId : JsId) (s : Sys) (i : nat)
    (q : Request) :
  inflight s !! i = Some (q, K_loadConversation conversationId) ->
  (forall s0, exists req,
      inflight (loadConversation conversationId s0) =
        inflight s0 ++ [(req, K_loadConversation conversationId)]
      /\ method req = GET
      /\ url req = js "/conversations/" ++ id_to_string conversationId
      /\ messages (app (loadConversation conversationId s0)) = messages (app s0)
      /\ currentConversationId (app (loadConversation conversationId s0)) =
         currentConversationId (app s0))
  /\ (forall status error, exists s',
        step s (E_reply i (Rejected status error)) = Some s'
        /\ messages (app s') = messages (app s)
        /\ currentConversationId (app s') = currentConversationId (app s)
        /\ alerts (browser s') =
           alerts (browser s) ++ [js "Failed to load conversation"])
  /\ (forall msgs, exists s',
        step s (E_reply i (Resolved (D_messages msgs))) = Some s'
        /\ messages (app s') = map history_message msgs
        /\ map (fun m => (role m, content m)) (messages (app s')) =
           map (fun h => (hm_role h, hm_content h)) msgs
        /\ currentConversationId (app s') = Some conversationId
        /\ alerts (browser s') = alerts (browser s)).
Proof.
  intros H. split; [|split].
  - intros s0. eexists. split; [reflexivity|]. by simpl.
  - intros status error.
    destruct (step_reply s i q _ (Rejected status error) H) as (s1 & Hs & Ha & _ & Hal).
    rewrite Hs. simpl. eexists. split; [reflexivity|]. simpl. by rewrite Ha, Hal.
  - intros msgs.
    destruct (step_reply s i q _ (Resolved (D_messages msgs)) H)
      as (s1 & Hs & Ha & _ & Hal).
    rewrite Hs. simpl. eexists. split; [reflexivity|]. simpl.
    by rewrite history_message_fields, Hal.
Qed.

Lemma select_replaces_or_keeps_witness :
  (exists s',
     step loading_c1 (E_reply 0 (Rejected None None)) = Some s'
     /\ messages (app s') = messages (app in_c1)
     /\ currentConversationId (app s') = Some (IdStr (js "c1"))
     /\ alerts (browser s') = [js "Failed to load conversation"])
  /\ (exists s',
        step loading_c1
          (E_reply 0 (Resolved (D_messages
             [{| hm_role := js "user"; hm_content := js "Hi";
                 hm_related_questions := None |}]))) = Some s'
        /\ messages (app s') = [user_says "Hi"]).
Proof.
  destruct (select_replaces_or_keeps (IdStr (js "c1")) loading_c1 0
    {| method := GET; url := js "/conversations/c1"; body := NoBody;
       authorization := Some (js "Bearer t0k3n") |} eq_refl) as (_ & Hfail & Hok).
  split.
  - destruct (Hfail None None) as (s' & Hs & Hm & Hc & Hal). exists s'. auto.
  - destruct (Hok [{| hm_role := js "user"; hm_content := js "Hi";
                      hm_related_questions := None |}]) as (s' & Hs & Hm & _).
    exists s'. auto.
Defined.

Lemma history_message_suggestions msgs :
  Forall (fun m => relatedQuestions m =
                   if bool_decide (role m = js "assistant") then Some [] else None)
         (map history_message msgs).
Proof.
  induction msgs as [|h msgs IH]; simpl; [constructor|].
  constructor; [reflexivity | exact IH].
Qed.

(** C9. After a successful selection every assistant message of the list
    has an empty list of suggestions and every other message has none,
    whatever the backend stored with the history; hence no suggestion can
    be clicked under any loaded message. *)
Theorem loaded_history_has_no_suggestions (conversationId : JsId) (s : Sys)
    (i : nat) (q : Request) (msgs : list HistoryMessage) :
  inflight s !! i = Some (q, K_loadConversation conversationId) ->
  exists s',
    step s (E_reply i (Resolved (D_messages msgs))) = Some s'
    /\ Forall (fun m => relatedQuestions m =
                        if bool_decide (role m = js "assistant") then Some [] else None)
              (messages (app s'))
    /\ forall index k, step s' (E_related index k) = None.
Proof.
  intros H.
  destruct (step_reply s i q _ (Resolved (D_messages msgs)) H) as (s1 & Hs & _).
  rewrite Hs. simpl. eexists. split; [reflexivity|]. simpl.
  pose proof (history_message_suggestions msgs) as HF.
  split; [exact HF|]. intros index k.
  destruct (map history_message msgs !! index) as [m|] eqn:Hm; [|done].
  rewrite (Forall_lookup_1 _ _ _ _ HF Hm). by case_bool_decide.
Qed.

Lemma loaded_history_has_no_suggestions_witness :
  exists s',
    step loading_c1
      (E_reply 0 (Resolved (D_messages
         [{| hm_role := js "user"; hm_content := js "What is tort law?";
             hm_related_questions := None |};
          {| hm_role := js "assistant"; hm_content := js "A tort is a civil wrong.";
             hm_related_questions := Some [js "What is negligence?"] |}]))) = Some s'
    /\ Forall (fun m => relatedQuestions m =
                        if bool_decide (role m = js "assistant") then Some [] else None)
              (messages (app s'))
    /\ forall index k, step s' (E_related index k) = None.
Proof.
  eapply (loaded_history_has_no_suggestions (IdStr (js "c1")) loading_c1 0).
  reflexivity.
Defined.

(** ** Deleting a conversation *)

Lemma loadConversations_inflight after s :
  exists req,
    inflight (loadConversations after s) =
      inflight s ++ [(req, K_loadConversations after)]
    /\ method req = GET
    /\ url req = js "/conversations".
Proof. eexists. split; [reflexivity|]. by simpl. Qed.

(** The refresh started by [loadConversations] installs the fetched list. *)
Lemma loadConversations_resolved s l :
  exists s',
    step (loadConversations A_return s)
         (E_reply (length (inflight s)) (Resolved (D_conversations l))) = Some s'
    /\ conversations (app s') = l
    /\ isLoadingConversations (app s') = false
    /\ messages (app s') = messages (app (loadConversations A_return s))
    /\ currentConversationId (app s') =
       currentConversationId (app (loadConversations A_return s)).
Proof.
  destruct (loadConversations_inflight A_return s) as (req & Hr & _).
  destruct (step_reply (loadConversations A_return s) (length (inflight s)) req
              (K_loadConversations A_return) (Resolved (D_conversations l)))
    as (s1 & Hs & Ha & _).
  { rewrite Hr. by rewrite list_lookup_middle. }
  rewrite Hs. simpl. eexists. split; [reflexivity|]. simpl. by rewrite Ha.
Qed.

(** C7. A confirmed [deleteConversation] remembers the id that is active
    when it is called.  When the delete request resolves: if the deleted id
    is that remembered id, the message list becomes empty and the active id
    none; otherwise both stay as the reply finds them.  In either case
    [loadConversations] is called next (the list is marked as loading and
    [GET /conversations] is put in flight), and when that request resolves
    the summary list becomes the fetched one. *)
Theorem delete_clears_active_then_refreshes (conversationId : JsId)
    (active : option JsId) (s : Sys) (i : nat) (q : Request) (data : ResponseData) :
  inflight s !! i = Some (q, K_deleteConversation conversationId active) ->
  (forall s0, exists req,
      inflight (deleteConversation conversationId true s0) =
        inflight s0
        ++ [(req, K_deleteConversation conversationId (currentConversationId (app s0)))]
      /\ method req = DELETE
      /\ url req = js "/conversations/" ++ id_to_string conversationId)
  /\ exists s' refresh,
       step s (E_reply i (Resolved data)) = Some s'
       /\ (if bool_decide (Some conversationId = active)
           then messages (app s') = []
                /\ currentConversationId (app s') = None
           else messages (app s') = messages (app s)
                /\ currentConversationId (app s') = currentConversationId (app s))
       /\ isLoadingConversations (app s') = true
       /\ inflight s' =
          delete i (inflight s) ++ [(refresh, K_loadConversations A_return)]
       /\ method refresh = GET
       /\ url refresh = js "/conversations"
       /\ forall l, exists s'',
            step s' (E_reply (length (delete i (inflight s))) (Resolved (D_conversations l)))
              = Some s''
            /\ conversations (app s'') = l
            /\ isLoadingConversations (app s'') = false
            /\ messages (app s'') = messages (app s')
            /\ currentConversationId (app s'') = currentConversationId (app s').
Proof.
  intros H. split.
  { intros s0. eexists. split; [reflexivity|]. by simpl. }
  destruct (step_reply s i q _ (Resolved data) H) as (s1 & Hs & Ha & Hi & _).
  rewrite Hs. cbn [settle]. unfold deleteConversation_settled.
  set (s2 := if bool_decide (Some conversationId = active)
             then update (setCurrentConversationId None)
                    (update (setMessages (fun _ => [])) s1)
             else s1).
  assert (inflight s2 = delete i (inflight s)) as Hi2.
  { unfold s2. by case_bool_decide. }
  destruct (loadConversations_inflight A_return s2) as (refresh & Hr & Hm & Hu).
  exists (loadConversations A_return s2), refresh.
  split; [reflexivity|].
  split.
  { unfold s2. case_bool_decide; simpl; [done | by rewrite Ha]. }
  split; [reflexivity|].
  split; [by rewrite Hr, Hi2|].
  split; [done|]. split; [done|].
  intros l. rewrite <- Hi2.
  destruct (loadConversations_resolved s2 l) as (s3 & ? & ? & ? & ? & ?).
  exists s3. auto.
Qed.

Lemma delete_clears_active_then_refreshes_witness :
  (exists s',
     step deleting_c1 (E_reply 0 (Resolved D_empty)) = Some s'
     /\ messages (app s') = []
     /\ currentConversationId (app s') = None
     /\ isLoadingConversations (app s') = true)
  /\ (exists s',
        step deleting_c2 (E_reply 0 (Resolved D_empty)) = Some s'
        /\ messages (app s') = messages (app deleting_c2)
        /\ currentConversationId (app s') = Some (IdStr (js "c1"))
        /\ isLoadingConversations (app s') = true).
Proof.
  split.
  - destruct (delete_clears_active_then_refreshes (IdStr (js "c1"))
      (Some (IdStr (js "c1"))) deleting_c1 0
      {| method := DELETE; url := js "/conversations/c1"; body := NoBody;
         authorization := Some (js "Bearer t0k3n") |} D_empty eq_refl)
      as (_ & s' & refresh & Hs & [Hm Hc] & Hl & _).
    exists s'. auto.
  - destruct (delete_clears_active_then_refreshes (IdStr (js "c2"))
      (Some (IdStr (js "c1"))) deleting_c2 0
      {| method := DELETE; url := js "/conversations/c2"; body := NoBody;
         authorization := Some (js "Bearer t0k3n") |} D_empty eq_refl)
      as (_ & s' & refresh & Hs & [Hm Hc] & Hl & _).
    exists s'. auto.
Defined.

(** ** Signing out *)

(** C8. [handleLogout] puts [POST /logout] in flight.  Whatever reply that
    request gets, resolved or rejected, the stored token and user, the
    user, the message list, the summary list and the active id are all
    cleared, the page is no longer authenticated and shows the sign-in
    dialog instead of the conversation view. *)
Theorem logout_clears_everything (s : Sys) (i : nat) (q : Request) (r : Reply) :
  inflight s !! i = Some (q, K_handleLogout) ->
  (forall s0, exists req,
      inflight (handleLogout s0) = inflight s0 ++ [(req, K_handleLogout)]
      /\ method req = POST
      /\ url req = js "/logout")
  /\ exists s',
       step s (E_reply i r) = Some s'
       /\ token (browser s') = None
       /\ stored_user (browser s') = None
       /\ user (app s') = None
       /\ messages (app s') = []
       /\ conversations (app s') = []
       /\ currentConversationId (app s') = None
       /\ isAuthenticated (app s') = false
       /\ showAuthModal (app s') = true
       /\ rendered (app s') = false.
Proof.
  intros H. split.
  { intros s0. eexists. split; [reflexivity|]. by simpl. }
  destruct (step_reply s i q _ r H) as (s1 & Hs & _).
  rewrite Hs. simpl. eexists. split; [reflexivity|]. simpl.
  repeat split. apply andb_false_r.
Qed.

Lemma logout_clears_everything_witness :
  inflight logging_out !! 0 =
    Some ({| method := POST; url := js "/logout"; body := NoBody;
             authorization := Some (js "Bearer t0k3n") |}, K_handleLogout)
  /\ exists s',
       step logging_out (E_reply 0 (Rejected None None)) = Some s'
       /\ token (browser s') = None
       /\ stored_user (browser s') = None
       /\ user (app s') = None
       /\ messages (app s') = []
       /\ conversations (app s') = []
       /\ currentConversationId (app s') = None
       /\ isAuthenticated (app s') = false
       /\ showAuthModal (app s') = true
       /\ rendered (app s') = false.
Proof.
  split; [reflexivity|].
  eapply (logout_clears_everything logging_out 0). reflexivity.
Defined.

(** * Further properties *)

(** ** What a submission needs *)







Lemma trimStart_head s :
  match trimStart s with [] => True | c :: _ => isWhiteSpace c = false end.
Proof.
  induction s as [|c s IH]; simpl; [done|].
  by destruct (isWhiteSpace c) eqn:Hc.
Qed.

Lemma trimStart_snoc l c :
  isWhiteSpace c = false -> trimStart (l ++ [c]) = trimStart l ++ [c].
Proof.
  intros Hc. induction l as [|a l IH]; simpl; [by rewrite Hc|].
  by destruct (isWhiteSpace a).
Qed.

Lemma trim_ends s :
  match trim s with [] => True | c :: _ => isWhiteSpace c = false end
  /\ match list.last (trim s) with None => True | Some c => isWhiteSpace c = false end.
Proof.
  unfold trim, trimEnd.
  pose proof (trimStart_head s) as Hh.
  destruct (trimStart s) as [|c t]; [done|].
  simpl rev. rewrite (trimStart_snoc _ _ Hh), rev_app_distr. simpl.
  split; [done|].
  pose proof (trimStart_head (rev t)) as Ht.
  destruct (trimStart (rev t)) as [|d u]; [done|].
  simpl. change (c :: rev u ++ [d]) with ((c :: rev u) ++ [d]).
  by rewrite last_snoc.
Qed.

(** X2. The user message of an accepted submission is the last of the new
    list.  Typed text is trimmed: its content neither begins nor ends with
    white space.  A suggestion is used as it is, white space included. *)
Theorem user_message_content (queryOverride : option jsstring) (s : Sys) :
  returns_early queryOverride (app s) = false ->
  exists c,
    list.last (messages (app (handleSendMessage queryOverride s))) =
      Some {| role := js "user"; content := c; relatedQuestions := None |}
    /\ (toBoolean queryOverride = false ->
        c = trim (input (app s))
        /\ match c with [] => True | a :: _ => isWhiteSpace a = false end
        /\ match list.last c with None => True | Some a => isWhiteSpace a = false end)
    /\ (toBoolean queryOverride = true -> queryOverride = Some c).
Proof.
  intros H. exists (query_of queryOverride (app s)).
  assert (messages (app (handleSendMessage queryOverride s)) =
          append_user_message queryOverride (query_of queryOverride (app s))
            (messages (app s))) as ->.
  { unfold handleSendMessage. rewrite H. by destruct (selectedImage (app s)). }
  rewrite append_user_message_spec, last_snoc.
  split; [done|]. unfold query_of, or_else.
  destruct queryOverride as [o|]; simpl.
  - change (toBoolean (Some o)) with (toBoolean o).
    destruct (toBoolean o); split; try done.
    intros _. split; [done|]. apply trim_ends.
  - split; [|done]. intros _. split; [done|]. apply trim_ends.
Qed.

Lemma user_message_content_witness :
  exists c,
    list.last (messages (app (handleSendMessage None
            (update (setInput (fun _ => js "  What is tort law? ")) idle)))) =
      Some {| role := js "user"; content := c; relatedQuestions := None |}
    /\ c = js "What is tort law?".
Proof.
  destruct (user_message_content None
              (update (setInput (fun _ => js "  What is tort law? ")) idle) eq_refl)
    as (c & Hl & Htyped & _).
  exists c. split; [exact Hl|]. by destruct (Htyped eq_refl) as [-> _].
Defined.

(** ** A turn that succeeds *)





(** ** Starting a conversation, refreshing the list *)

(** X5. [createNewConversation] puts [POST /conversations/new] in flight and
    changes nothing else.  When the request resolves, the returned id is
    the active one, the message list is empty, the sidebar is closed and
    the list of conversations is being fetched.  When it is rejected, no
    conversation is active, the message list is empty, the sidebar is
    closed, and neither an alert nor a further request follows. *)
Theorem new_conversation_or_none (s : Sys) (i : nat) (q : Request) :
  inflight s !! i = Some (q, K_createNewConversation) ->
  (forall s0, exists req,
      createNewConversation s0 =
        {| app := app s0; browser := browser s0;
           inflight := inflight s0 ++ [(req, K_createNewConversation)] |}
      /\ method req = POST
      /\ url req = js "/conversations/new")
  /\ (forall newConversationId, exists s' refresh,
        step s (E_reply i (Resolved (D_conversation_id newConversationId))) = Some s'
        /\ currentConversationId (app s') = newConversationId
        /\ messages (app s') = []
        /\ sidebarOpen (app s') = false
        /\ isLoadingConversations (app s') = true
        /\ inflight s' =
           delete i (inflight s) ++ [(refresh, K_loadConversations A_return)]
        /\ url refresh = js "/conversations")
  /\ (forall status error, exists s',
        step s (E_reply i (Rejected status error)) = Some s'
        /\ currentConversationId (app s') = None
        /\ messages (app s') = []
        /\ sidebarOpen (app s') = false
        /\ alerts (browser s') = alerts (browser s)
        /\ inflight s' = delete i (inflight s)).
Proof.
  intros H. split; [|split].
  - intros s0. eexists. split; [reflexivity|]. by simpl.
  - intros newId.
    destruct (step_reply s i q _ (Resolved (D_conversation_id newId)) H)
      as (s1 & Hs & Ha & Hi & _).
    rewrite Hs. simpl. eexists _, _. split; [reflexivity|]. simpl.
    by rewrite Hi.
  - intros status error.
    destruct (step_reply s i q _ (Rejected status error) H)
      as (s1 & Hs & Ha & Hi & Hal).
    rewrite Hs. simpl. eexists. split; [reflexivity|]. simpl.
    by rewrite Hi, Hal.
Qed.

Lemma new_conversation_or_none_witness :
  currentConversationId (app creating) = Some (IdStr (js "c1"))
  /\ exists s',
       step creating (E_reply 0 (Rejected (Some 500%N) None)) = Some s'
       /\ currentConversationId (app s') = None
       /\ messages (app s') = []
       /\ inflight s' = [].
Proof.
  split; [reflexivity|].
  destruct (new_conversation_or_none creating 0
    {| method := POST; url := js "/conversations/new"; body := NoBody;
       authorization := Some (js "Bearer t0k3n") |} eq_refl) as (_ & _ & Hfail).
  destruct (Hfail (Some 500%N) None) as (s' & Hs & Hc & Hm & _ & _ & Hi).
  exists s'. auto.
Defined.

(** X6. A fetch of the list of conversations that is rejected is swallowed:
    the list shown stays the one there was, the loading mark of the sidebar
    is removed, no alert is raised, and messages and active id are not
    touched.  (The error goes to the console.) *)
Theorem failed_refresh_keeps_list (s : Sys) (i : nat) (q : Request)
    (status : option N) (error : option jsstring) :
  inflight s !! i = Some (q, K_loadConversations A_return) ->
  exists s',
    step s (E_reply i (Rejected status error)) = Some s'
    /\ conversations (app s') = conversations (app s)
    /\ isLoadingConversations (app s') = false
    /\ alerts (browser s') = alerts (browser s)
    /\ messages (app s') = messages (app s)
    /\ currentConversationId (app s') = currentConversationId (app s)
    /\ isLoading (app s') = isLoading (app s)
    /\ inflight s' = delete i (inflight s).
Proof.
  intros H.
  destruct (step_reply s i q _ (Rejected status error) H) as (s1 & Hs & Ha & Hi & Hal).
  rewrite Hs. simpl. eexists. split; [reflexivity|]. simpl.
  by rewrite Ha, Hi, Hal.
Qed.

Lemma failed_refresh_keeps_list_witness :
  exists s',
    step (loadConversations A_return in_c1) (E_reply 0 (Rejected None None)) = Some s'
    /\ conversations (app s') = conversations (app in_c1)
    /\ isLoadingConversations (app s') = false
    /\ alerts (browser s') = [].
Proof.
  destruct (failed_refresh_keeps_list (loadConversations A_return in_c1) 0
    {| method := GET; url := js "/conversations"; body := NoBody;
       authorization := Some (js "Bearer t0k3n") |} None None eq_refl)
    as (s' & Hs & Hc & Hl & Hal & _).
  exists s'. auto.
Defined.

(** ** Files, documents and recordings *)

Lemma split_slash_0_spec t : forall p,
  split_slash_0 t = p <->
  (47%N ∉ p) /\ (t = p \/ exists rest, t = p ++ 47%N :: rest).
Proof.
  induction t as [|c t IH]; intros p; simpl.
  - split.
    + intros <-. split; [apply not_elem_of_nil | by left].
    + intros [_ [<-|[rest Hr]]]; [done|]. by destruct p.
  - destruct (c =? 47)%N eqn:Hc.
    + apply N.eqb_eq in Hc as ->. split.
      * intros <-. split; [apply not_elem_of_nil | right; by exists t].
      * intros [Hn [<-|[rest Hr]]].
        -- exfalso. apply Hn. by left.
        -- destruct p as [|a p]; [done|]. simpl in Hr. injection Hr as <- _.
           exfalso. apply Hn. by left.
    + apply N.eqb_neq in Hc. split.
      * intros <-. destruct (proj1 (IH (split_slash_0 t)) eq_refl) as [Hn Hsh].
        split.
        -- intros Hin. apply elem_of_cons in Hin as [Hin|Hin]; [by subst | done].
        -- destruct Hsh as [Ht|[rest Hr]].
           ++ left. by rewrite <- Ht.
           ++ right. exists rest. simpl. by rewrite <- Hr.
      * intros [Hn Hsh]. destruct p as [|a p].
        -- destruct Hsh as [Ht|[rest Hr]]; [done|]. simpl in Hr. by injection Hr as ->.
        -- assert (47%N ∉ p) as Hn'.
           { intros Hin. apply Hn. by right. }
           destruct Hsh as [Ht|[rest Hr]].
           ++ injection Ht as <- <-. f_equal. apply IH. split; [done | by left].
           ++ simpl in Hr. injection Hr as <- ->. f_equal. apply IH.
              split; [done | right; by exists rest].
Qed.

Lemma image_type_spec t : split_slash_0 t = js "image" <-> image_type t.
Proof.
  rewrite split_slash_0_spec. unfold image_type. split.
  - intros [_ [Ht|[rest Hr]]]; [by left | right]. exists rest. rewrite Hr.
    reflexivity.
  - intros Ht. split.
    + vm_compute. intros Hin.
      repeat (apply elem_of_cons in Hin as [Hin|Hin]; [discriminate Hin|]).
      by apply elem_of_nil in Hin.
    + destruct Ht as [Ht|[rest Hr]]; [by left | right]. exists rest. rewrite Hr.
      reflexivity.
Qed.

(** X7. A picked file whose content type is [image] or begins with
    [image/] is staged with its preview and nothing is sent or added to the
    message list.  Any other file is not staged: it is posted at once to
    [/upload_document] as the multipart field [file], and the system
    message "Uploading <name>..." is appended.  A cancelled file dialog
    changes nothing. *)
Theorem file_staged_or_uploaded (file : File) (s : Sys) :
  (image_type (file_type file) ->
     selectedImage (app (handleFileChange (Some file) s)) = Some file
     /\ imagePreview (app (handleFileChange (Some file) s)) = Some (createObjectURL file)
     /\ inflight (handleFileChange (Some file) s) = inflight s
     /\ messages (app (handleFileChange (Some file) s)) = messages (app s))
  /\ (~ image_type (file_type file) ->
        selectedImage (app (handleFileChange (Some file) s)) = selectedImage (app s)
        /\ imagePreview (app (handleFileChange (Some file) s)) = imagePreview (app s)
        /\ inflight (handleFileChange (Some file) s) =
           inflight s
           ++ [({| method := POST; url := js "/upload_document";
                   body := Multipart [(js "file", FormFile file None)];
                   authorization := bearer (browser s) |}, K_handleDocumentUpload)]
        /\ messages (app (handleFileChange (Some file) s)) =
           messages (app s)
           ++ [{| role := js "system";
                  content := js "Uploading " ++ file_name file ++ js "...";
                  relatedQuestions := None |}])
  /\ handleFileChange None s = s.
Proof.
  unfold handleFileChange. split; [|split; [|done]].
  - intros Ht. apply image_type_spec in Ht. rewrite Ht.
    by rewrite bool_decide_eq_true_2.
  - intros Ht. rewrite bool_decide_eq_false_2; [done|].
    intros Hs. by apply Ht, image_type_spec.
Qed.

Lemma file_staged_or_uploaded_witness :
  selectedImage (app (handleFileChange (Some clause_png) idle)) = Some clause_png
  /\ inflight (handleFileChange (Some clause_png) idle) = []
  /\ selectedImage (app (handleFileChange (Some contract_pdf) idle)) = None
  /\ length (inflight (handleFileChange (Some contract_pdf) idle)) = 1.
Proof.
  destruct (file_staged_or_uploaded clause_png idle) as (Himg & _ & _).
  destruct (file_staged_or_uploaded contract_pdf idle) as (_ & Hdoc & _).
  destruct Himg as (H1 & _ & H2 & _).
  { right. exists (js "png"). reflexivity. }
  destruct Hdoc as (H3 & _ & H4 & _).
  { intros [Ht|[rest Hr]]; [discriminate Ht | discriminate Hr]. }
  split; [exact H1|]. split; [exact H2|]. split; [exact H3|]. by rewrite H4.
Defined.

(** X8. An upload does not hold up the conversation: starting it changes
    neither the busy flag nor the input nor the staged image, so the next
    submission is accepted or ignored as before.  Its reply, resolved or
    rejected, appends exactly one system message (the server's message, or
    the error text, or "File upload failed.") and touches nothing else of
    the conversation. *)
Theorem upload_runs_beside_turns (s : Sys) (i : nat) (q : Request) :
  inflight s !! i = Some (q, K_handleDocumentUpload) ->
  (forall file s0 queryOverride,
      returns_early queryOverride (app (handleDocumentUpload file s0)) =
      returns_early queryOverride (app s0))
  /\ forall r,
       match r with Resolved (D_message _) | Rejected _ _ => True | _ => False end ->
       exists s',
         step s (E_reply i r) = Some s'
         /\ messages (app s') =
            messages (app s)
            ++ [{| role := js "system";
                   content :=
                     match r with
                     | Resolved (D_message m) => m
                     | Rejected _ error => or_else error (js "File upload failed.")
                     | _ => []
                     end;
                   relatedQuestions := None |}]
         /\ isLoading (app s') = isLoading (app s)
         /\ input (app s') = input (app s)
         /\ selectedImage (app s') = selectedImage (app s)
         /\ currentConversationId (app s') = currentConversationId (app s)
         /\ alerts (browser s') = alerts (browser s)
         /\ inflight s' = delete i (inflight s).
Proof.
  intros H. split; [done|]. intros r Hshape.
  destruct (step_reply s i q _ r H) as (s1 & Hs & Ha & Hi & Hal).
  rewrite Hs.
  destruct r as [[]|]; try done; simpl; eexists; (split; [reflexivity|]); simpl;
    by rewrite Ha, Hi, Hal.
Qed.

Lemma upload_runs_beside_turns_witness :
  exists s',
    step uploading (E_reply 0 (Rejected (Some 413%N) None)) = Some s'
    /\ messages (app s') =
       messages (app two_answers)
       ++ [ {| role := js "system"; content := js "Uploading contract.pdf...";
               relatedQuestions := None |};
            {| role := js "system"; content := js "File upload failed.";
               relatedQuestions := None |} ].
Proof.
  destruct (upload_runs_beside_turns uploading 0
    {| method := POST; url := js "/upload_document";
       body := Multipart [(js "file", FormFile contract_pdf None)];
       authorization := Some (js "Bearer t0k3n") |} eq_refl) as [_ Hr].
  destruct (Hr (Rejected (Some 413%N) None) I) as (s' & Hs & Hm & _).
  exists s'. split; [exact Hs|]. rewrite Hm. reflexivity.
Defined.

(** X9. A recording is posted to [/transcribe] as the multipart field
    [audio] named audio.webm.  When the transcription arrives it is added at
    the end of whatever the input holds by then, after one space if the
    input is not empty; when the request is rejected the input stays as it
    is and the alert "Audio transcription failed." is raised.  The message
    list is not touched either way. *)
Theorem transcription_appended_to_input (s : Sys) (i : nat) (q : Request) :
  inflight s !! i = Some (q, K_handleTranscription) ->
  (forall blob s0,
      handleTranscription blob s0 =
        {| app := app s0; browser := browser s0;
           inflight :=
             inflight s0
             ++ [({| method := POST; url := js "/transcribe";
                     body := Multipart [(js "audio", FormFile blob (Some (js "audio.webm")))];
                     authorization := bearer (browser s0) |}, K_handleTranscription)] |})
  /\ (forall transcription, exists s',
        step s (E_reply i (Resolved (D_transcription transcription))) = Some s'
        /\ input (app s') =
           (match input (app s) with
            | [] => transcription
            | _ :: _ => input (app s) ++ js " " ++ transcription
            end)
        /\ messages (app s') = messages (app s)
        /\ alerts (browser s') = alerts (browser s))
  /\ (forall status error, exists s',
        step s (E_reply i (Rejected status error)) = Some s'
        /\ input (app s') = input (app s)
        /\ messages (app s') = messages (app s)
        /\ alerts (browser s') = alerts (browser s) ++ [js "Audio transcription failed."]).
Proof.
  intros H. split; [done|]. split.
  - intros t.
    destruct (step_reply s i q _ (Resolved (D_transcription t)) H)
      as (s1 & Hs & Ha & Hi & Hal).
    rewrite Hs. simpl. eexists. split; [reflexivity|]. simpl. rewrite Ha, Hal.
    split; [|done]. destruct (input (app s)); [done|]. simpl.
    by rewrite <- app_assoc.
  - intros status error.
    destruct (step_reply s i q _ (Rejected status error) H)
      as (s1 & Hs & Ha & Hi & Hal).
    rewrite Hs. simpl. eexists. split; [reflexivity|]. simpl. by rewrite Ha, Hal.
Qed.

Lemma transcription_appended_to_input_witness :
  exists s',
    step transcribing (E_reply 0 (Resolved (D_transcription (js "tort law?")))) = Some s'
    /\ input (app s') = js "What is tort law?".
Proof.
  destruct (transcription_appended_to_input transcribing 0
    {| method := POST; url := js "/transcribe";
       body := Multipart [(js "audio", FormFile recording (Some (js "audio.webm")))];
       authorization := Some (js "Bearer t0k3n") |} eq_refl) as (_ & Hok & _).
  destruct (Hok (js "tort law?")) as (s' & Hs & Hi & _).
  exists s'. split; [exact Hs|]. rewrite Hi. reflexivity.
Defined.

(** ** Reading aloud *)

(** [speech.speak] leaves exactly the new utterance in the queue. *)
Lemma speech_speak_spec text cb b :
  utterances (speech_speak text cb b) =
    utterances b ++ [{| utt_text := text; utt_onend := cb |}]
  /\ synth_queue (speech_speak text cb b) = [length (utterances b)].
Proof.
  unfold speech_speak, synth_speaking.
  destruct (synth_queue b) eqn:E; simpl; by rewrite ?E.
Qed.

(** X10. From any state in which message [i] is not the one being read:
    toggling [i] twice ends in [Silent] with the synthesizer's queue empty;
    toggling [i] and then another message [j] ends in [Speaking j] with one
    utterance in the queue, the newest, whose text is the plain text of
    [j]'s markdown: the utterance of [i] was cancelled. *)
Theorem toggle_twice_or_switch (i j : nat) (text_i text_j : jsstring) (s : Sys) :
  speech_state (app s) <> Some (Speaking i) ->
  i <> j ->
  (let s2 := handleToggleSpeech i text_i (handleToggleSpeech i text_i s) in
   speech_state (app s2) = Some Silent
   /\ synth_queue (browser s2) = [])
  /\ (let s2 := handleToggleSpeech j text_j (handleToggleSpeech i text_i s) in
      speech_state (app s2) = Some (Speaking j)
      /\ synth_queue (browser s2) = [S (length (utterances (browser s)))]
      /\ utterances (browser s2) !! S (length (utterances (browser s))) =
         Some {| utt_text := toText text_j; utt_onend := Cb_handleToggleSpeech_onEnd |}).
Proof.
  intros Hs Hij.
  assert (isSpeaking (app s) && bool_decide (speakingMessageId (app s) = Some i) = false)
    as Hfirst.
  { destruct (isSpeaking (app s)) eqn:E1; [|done]. simpl.
    apply bool_decide_eq_false. intros E2. apply Hs.
    unfold speech_state. by rewrite E1, E2. }
  split.
  - unfold handleToggleSpeech at 2. rewrite Hfirst.
    unfold handleToggleSpeech. simpl. by rewrite bool_decide_eq_true_2.
  - unfold handleToggleSpeech at 2. rewrite Hfirst.
    unfold handleToggleSpeech. cbn -[speech_speak].
    rewrite bool_decide_eq_false_2 by congruence. cbn -[speech_speak].
    split; [done|].
    destruct (speech_speak_spec (toText text_i) Cb_handleToggleSpeech_onEnd (browser s))
      as [Hu1 _].
    destruct (speech_speak_spec (toText text_j) Cb_handleToggleSpeech_onEnd
                (speech_speak (toText text_i) Cb_handleToggleSpeech_onEnd (browser s)))
      as [Hu2 Hq2].
    rewrite Hq2, Hu2, Hu1, length_app. simpl.
    replace (length (utterances (browser s)) + 1) with (S (length (utterances (browser s))))
      by lia.
    split; [done|].
    rewrite lookup_app_r; rewrite length_app; simpl; [|lia].
    by replace (S (length (utterances (browser s))) - (length (utterances (browser s)) + 1))
      with 0 by lia.
Qed.

Lemma toggle_twice_or_switch_witness :
  speech_state (app (handleToggleSpeech 1 (js "A tort is a civil wrong.")
                       (handleToggleSpeech 1 (js "A tort is a civil wrong.") two_answers)))
    = Some Silent
  /\ speech_state (app reading_aloud) = Some (Speaking 3)
  /\ synth_queue (browser reading_aloud) = [1].
Proof.
  destruct (toggle_twice_or_switch 1 3 (js "A tort is a civil wrong.")
              (js "An enforceable agreement.") two_answers) as [[H1 _] [H2 [H3 _]]].
  - discriminate.
  - lia.
  - split; [exact H1|]. split; [exact H2 | exact H3].
Defined.

Lemma response_interceptor_speech r s :
  synth_queue (browser (response_interceptor r s)) = synth_queue (browser s)
  /\ utterances (browser (response_interceptor r s)) = utterances (browser s).
Proof. unfold response_interceptor. by repeat case_match. Qed.

Lemma speech_state_frame st st' :
  isSpeaking st' = isSpeaking st ->
  speakingMessageId st' = speakingMessageId st ->
  speech_state st' = speech_state st.
Proof. unfold speech_state. by intros -> ->. Qed.

(** No continuation touches the speech controller or the synthesizer. *)
Lemma settle_speech k r s s' :
  settle k r s = Some s' ->
  speech_state (app s') = speech_state (app s)
  /\ synth_queue (browser s') = synth_queue (browser s)
  /\ utterances (browser s') = utterances (browser s).
Proof.
  intros H.
  destruct k as [[]| | | | | | |], r as [[]|]; simpl in H; unfold_handlers;
    repeat case_match; simplify_eq; simpl; done.
Qed.

Lemma step_speech_consistent s e s' :
  speech_consistent s -> step s e = Some s' -> speech_consistent s'.
Proof.
  unfold speech_consistent. intros (Hst & Hlen & Hall) Hs.
  destruct e; simpl in Hs.
  15: { unfold deliver in Hs. destruct (inflight s !! i) as [[q k]|]; [|done].
        apply settle_speech in Hs as (-> & -> & ->).
        destruct (response_interceptor_speech r
          {| app := app s; browser := browser s; inflight := delete i (inflight s) |})
          as [-> ->].
        destruct (response_interceptor_frame r
          {| app := app s; browser := browser s; inflight := delete i (inflight s) |})
          as (-> & _). done. }
  7: { inv_step Hs. simpl. rewrite speech_state_call.
       split; [done|]. split.
       - destruct (synth_queue (browser s)) as [|v l]; [done|].
         case_bool_decide; simpl in *; lia.
       - destruct (synth_queue (browser s)) as [|v l]; [done|].
         case_bool_decide; [by inversion Hall | done]. }
  6: { inv_step Hs. unfold handleToggleSpeech. case_match; cbn -[speech_speak].
       - split; [done|]. split; [lia | constructor].
       - split; [done|].
         destruct (speech_speak_spec (toText (content m)) Cb_handleToggleSpeech_onEnd
                     (browser s)) as [-> ->].
         split; [simpl; lia|]. constructor; [|constructor].
         rewrite length_app. simpl. lia. }
  all: inv_step Hs; unfold_handlers; unfold returns_early;
    repeat case_match; simpl; done.
Qed.

(** X11. At every moment the speech controller is in one of its two states
    (speaking is flagged exactly when a message index is set), and the
    synthesizer holds at most one utterance, one that was created: this
    holds after any sequence of events from a page where it holds. *)
Theorem one_utterance_at_a_time (s : Sys) (es : list Event) (s' : Sys) :
  speech_consistent s -> run s es = Some s' -> speech_consistent s'.
Proof.
  revert s. induction es as [|e es IH]; simpl; intros s Hinv Hrun.
  - by injection Hrun as <-.
  - destruct (step s e) as [s1|] eqn:Hs; [|done].
    apply (IH s1); [|done]. by eapply step_speech_consistent.
Qed.

Lemma one_utterance_at_a_time_witness :
  exists s',
    run two_answers [E_toggle_speech 1; E_input (js "hm"); E_toggle_speech 3;
                     E_utterance_end 0; E_toggle_speech 3; E_toggle_speech 3] = Some s'
    /\ speech_consistent s'.
Proof.
  eexists. split; [vm_compute; reflexivity|].
  eapply (one_utterance_at_a_time two_answers
    [E_toggle_speech 1; E_input (js "hm"); E_toggle_speech 3;
     E_utterance_end 0; E_toggle_speech 3; E_toggle_speech 3]).
  - split; [by eexists|]. split; [simpl; lia | constructor].
  - vm_compute; reflexivity.
Defined.

(** ** The message list only grows *)

Lemma transcript_clear_trailing l :
  transcript (clear_trailing_suggestions l) = transcript l.
Proof.
  destruct l as [|m l] using rev_ind; [done|].
  rewrite clear_trailing_suggestions_snoc. unfold transcript.
  rewrite !map_app. simpl. by case_bool_decide.
Qed.

Lemma transcript_append_user_message queryOverride query l :
  transcript (append_user_message queryOverride query l) =
  transcript l ++ [(js "user", query)].
Proof.
  rewrite append_user_message_spec. unfold transcript at 1. rewrite map_app.
  destruct (toBoolean queryOverride); [|done].
  fold (transcript (clear_trailing_suggestions l)). by rewrite transcript_clear_trailing.
Qed.

Lemma transcript_prefix_app l k : transcript l `prefix_of` transcript (l ++ k).
Proof. unfold transcript. rewrite map_app. by apply prefix_app_r. Qed.

Lemma messages_call cb st : messages (call cb st) = messages st.
Proof. by destruct cb. Qed.

Lemma step_transcript_grows s e s' :
  replaces_messages s e = false ->
  step s e = Some s' ->
  transcript (messages (app s)) `prefix_of` transcript (messages (app s')).
Proof.
  intros He Hs. destruct e; simpl in Hs.
  15: { simpl in He.
        apply deliver_inv in Hs as (q & k & s1 & Hi & Ha & _ & Hs).
        rewrite Hi in He. rewrite <- Ha. clear Hi Ha.
        destruct k as [[]| | | | | | |], r as [[]|]; try discriminate;
          simpl in Hs; unfold_handlers; repeat case_match; simplify_eq; simpl;
          try done; apply transcript_prefix_app. }
  all: inv_step Hs; unfold_handlers; repeat case_match; simpl;
    rewrite ?messages_call; try done; try apply transcript_prefix_app;
    rewrite transcript_append_user_message; by apply prefix_app_r.
Qed.

(** X12. Apart from the four replies that replace the message list (a
    loaded history, a new conversation, a delete, a logout), nothing that
    happens removes, reorders or rewrites a message: after any sequence of
    other events the roles and contents of the old list are a prefix of
    those of the new one. *)
Theorem transcript_only_grows (s : Sys) (es : list Event) (s' : Sys) :
  none_replaces_messages s es = true ->
  run s es = Some s' ->
  transcript (messages (app s)) `prefix_of` transcript (messages (app s')).
Proof.
  revert s. induction es as [|e es IH]; simpl; intros s Hes Hrun.
  - by injection Hrun as <-.
  - apply andb_prop in Hes as [He Hes].
    destruct (step s e) as [s1|] eqn:Hs; [|done].
    transitivity (transcript (messages (app s1))).
    + eapply step_transcript_grows; [|done]. by destruct (replaces_messages s e).
    + by apply IH.
Qed.

Lemma transcript_only_grows_witness :
  exists s',
    run two_answers
      [E_related 1 0; E_file (Some contract_pdf);
       E_reply 0 (Rejected None (Some (js "Model unavailable")));
       E_reply 0 (Resolved (D_message (js "Indexed contract.pdf")))] = Some s'
    /\ transcript (messages (app two_answers)) `prefix_of` transcript (messages (app s'))
    /\ length (messages (app s')) = 8.
Proof.
  eexists. split; [vm_compute; reflexivity|]. split; [|vm_compute; reflexivity].
  apply (transcript_only_grows two_answers
    [E_related 1 0; E_file (Some contract_pdf);
     E_reply 0 (Rejected None (Some (js "Model unavailable")));
     E_reply 0 (Resolved (D_message (js "Indexed contract.pdf")))]);
    vm_compute; reflexivity.
Defined.

(** ** The stored session *)

Lemma response_interceptor_spec r s :
  response_interceptor r s =
  if is_unauthorized r
  then with_browser location_reload
         (with_browser removeItem_user (with_browser removeItem_token s))
  else s.
Proof.
  unfold response_interceptor, is_unauthorized.
  destruct r as [d|[status|] error]; try done.
  destruct (status =? 401)%N eqn:E.
  - by apply N.eqb_eq in E as ->.
  - apply N.eqb_neq in E. repeat case_match; try done; try (by destruct E).
Qed.





Lemma elem_of_delete {A} (l : list A) i x : x ∈ delete i l -> x ∈ l.
Proof.
  revert i. induction l as [|a l IH]; intros [|i] H; simpl in *; try done.
  - by right.
  - apply elem_of_cons in H as [->|H]; [by left | right; eauto].
Qed.

(** What a continuation leaves in flight: what there was, and at most a
    fetch of the list of conversations. *)
Lemma settle_inflight k r s s' :
  settle k r s = Some s' ->
  inflight s' = inflight s
  \/ exists after,
       inflight s' =
         inflight s
         ++ [({| method := GET; url := js "/conversations"; body := NoBody;
                 authorization := bearer (browser s) |}, K_loadConversations after)]
       /\ is_unauthorized r = false.
Proof.
  intros H.
  destruct k as [[]| | | | | | |], r as [[]|]; simpl in H; unfold_handlers;
    repeat case_match; simplify_eq; simpl; try (by left); right; by eexists.
Qed.

(** X14. Every request a handler sends through [api] carries the header
    "Bearer <token>" with the token stored at that moment, and no
    Authorization header when no token, or an empty one, is stored: after
    any event, each request in flight was in flight before or carries
    exactly that header. *)
Theorem requests_carry_stored_token (s : Sys) (e : Event) (s' : Sys)
    (req : Request) (k : Cont) :
  step s e = Some s' ->
  (req, k) ∈ inflight s' ->
  (req, k) ∈ inflight s \/ authorization req = bearer (browser s).
Proof.
  intros Hs Hin. destruct e; simpl in Hs.
  15: { unfold deliver in Hs. destruct (inflight s !! i) as [[q0 k0]|]; [|done].
        rewrite response_interceptor_spec in Hs.
        destruct (settle_inflight _ _ _ _ Hs) as [Hi|(after & Hi & Hr)].
        - rewrite Hi in Hin. left. destruct (is_unauthorized r); simpl in Hin;
            by apply elem_of_delete in Hin.
        - rewrite Hr in Hi. simpl in Hi. rewrite Hi in Hin.
          apply elem_of_app in Hin as [Hin|Hin].
          + left. by apply elem_of_delete in Hin.
          + right. apply list_elem_of_singleton in Hin. by injection Hin as -> _. }
  all: inv_step Hs; unfold_handlers; repeat case_match; simpl in Hin;
    try (by left);
    apply elem_of_app in Hin as [Hin|Hin]; try (by left);
    right; apply list_elem_of_singleton in Hin; by injection Hin as -> _.
Qed.

Lemma requests_carry_stored_token_witness :
  exists req k,
    inflight image_turn = [(req, k)]
    /\ authorization req = Some (js "Bearer t0k3n").
Proof.
  eexists _, _. split; [reflexivity|].
  destruct (requests_carry_stored_token clause_typed E_send image_turn
    {| method := POST; url := js "/chat_vision";
       body := Multipart [(js "question", FormString (js "Explain this clause"));
                          (js "image", FormFile clause_png None)];
       authorization := Some (js "Bearer t0k3n") |}
    (K_handleSendMessage (Some clause_png) None) eq_refl) as [Hin|Hb].
  - by left.
  - by apply elem_of_nil in Hin.
  - reflexivity.
Defined.

(** ** After signing out *)

Lemma isAuthenticated_call cb st : isAuthenticated (call cb st) = isAuthenticated st.
Proof. by destruct cb. Qed.

(** Nothing in the event loop signs the user in. *)
Lemma step_stays_signed_out s e s' :
  isAuthenticated (app s) = false -> step s e = Some s' ->
  isAuthenticated (app s') = false.
Proof.
  intros Hu Hs. destruct e; simpl in Hs.
  15: { apply deliver_inv in Hs as (q & k & s1 & _ & Ha & _ & Hs).
        rewrite <- Ha in Hu.
        destruct k as [[]| | | | | | |], r as [[]|]; simpl in Hs; unfold_handlers;
          repeat case_match; simplify_eq; simpl; done. }
  all: inv_step Hs; unfold_handlers; repeat case_match; simpl;
    rewrite ?isAuthenticated_call; done.
Qed.

Lemma control_needs_rendered s e :
  rendered (app s) = false -> is_control e = true -> step s e = None.
Proof.
  intros Hr He. destruct e; try discriminate He; simpl; rewrite Hr; simpl;
    repeat case_match; done.
Qed.

(** X15. Once the reply to the logout request has arrived, no control of
    the conversation view does anything until a login resolves: through any
    sequence of view events, late replies and rejected logins, the input,
    the send button, a suggestion, the file picker, the speech button, the
    sidebar and the logout itself are all without effect.  A login that
    resolves ends this: the view is shown again. *)
Theorem signed_out_page_is_inert `{JSON} (s : Sys) (i : nat) (q : Request) (r : Reply)
    (s' : Sys) (pes : list PageEvent) (s'' : Sys) :
  inflight s !! i = Some (q, K_handleLogout) ->
  step s (E_reply i r) = Some s' ->
  forallb (fun pe => negb (signs_in pe)) pes = true ->
  page_run s' pes = Some s'' ->
  (forall e, is_control e = true -> step s'' e = None)
  /\ (isCheckingAuth (app s'') = false ->
      forall tok username user_id, exists s3,
        page_step s'' (P_login_reply (AuthResolved (D_login tok username user_id)))
          = Some s3
        /\ rendered (app s3) = true
        /\ user (app s3) = Some {| username := username; user_id := user_id |}).
Proof.
  intros Hi Hs Hpes Hrun.
  assert (isAuthenticated (app s') = false) as Hu.
  { destruct (step_reply s i q _ r Hi) as (s1 & Hs1 & _).
    rewrite Hs1 in Hs. simpl in Hs. unfold handleLogout_settled in Hs.
    by injection Hs as <-. }
  clear Hs Hi.
  assert (isAuthenticated (app s'') = false) as Hu''.
  { revert s' Hu Hrun. induction pes as [|pe pes IH]; simpl; intros s' Hu Hrun.
    - by injection Hrun as <-.
    - apply andb_prop in Hpes as [Hpe Hpes].
      destruct (page_step s' pe) as [s1|] eqn:Hs; [|done].
      apply (IH Hpes s1); [|done].
      destruct pe as [e|[d|status error]]; simpl in Hs.
      + by eapply step_stays_signed_out.
      + discriminate Hpe.
      + by injection Hs as <-. }
  split.
  - intros e He. apply control_needs_rendered; [|done].
    unfold rendered. by rewrite Hu'', andb_false_r.
  - intros Hc tok username user_id. simpl.
    unfold handleLogin_settled, effect_isAuthenticated. simpl. rewrite Hu''. simpl.
    eexists. split; [reflexivity|]. simpl. unfold rendered. simpl. by rewrite Hc.
Qed.

Lemma signed_out_page_is_inert_witness :
  exists s'',
    @page_run ada_codec logging_out
      [P_view (E_reply 0 (Resolved D_empty)); P_view (E_audio recording);
       P_login_reply (AuthRejected (Some 401%N) None);
       P_view (E_reply 0 (Resolved (D_transcription (js "hello"))))] = Some s''
    /\ step s'' E_send = None
    /\ exists s3,
         @page_step ada_codec s''
           (P_login_reply (AuthResolved (D_login (js "t0k3n") (js "ada") (IdNum 7))))
           = Some s3
         /\ rendered (app s3) = true.
Proof.
  eexists. split; [vm_compute; reflexivity|].
  destruct (@signed_out_page_is_inert ada_codec logging_out 0
    {| method := POST; url := js "/logout"; body := NoBody;
       authorization := Some (js "Bearer t0k3n") |} (Resolved D_empty)
    _
    [P_view (E_audio recording); P_login_reply (AuthRejected (Some 401%N) None);
     P_view (E_reply 0 (Resolved (D_transcription (js "hello"))))]
    _ eq_refl ltac:(vm_compute; reflexivity) eq_refl ltac:(vm_compute; reflexivity))
    as [Hinert Hlogin].
  split; [by apply Hinert|].
  destruct (Hlogin eq_refl (js "t0k3n") (js "ada") (IdNum 7)) as (s3 & Hs3 & Hr & _).
  exists s3. split; [exact Hs3 | exact Hr].
Defined.

(** ** A delete that does not happen *)

(** X16. A conversation is deleted only when both questions, the sidebar's
    and [deleteConversation]'s own, are answered yes: otherwise nothing is
    sent and nothing changes.  When the delete request is rejected, the
    message list, the active id and the list of conversations stay as they
    are, the alert "Failed to delete conversation" is raised, and the list
    is not fetched again. *)
Theorem delete_declined_or_failed (conversationId : JsId) (active : option JsId)
    (s : Sys) (i : nat) (q : Request) (status : option N) (error : option jsstring) :
  inflight s !! i = Some (q, K_deleteConversation conversationId active) ->
  (forall confirmed again s0,
      confirmed && again = false ->
      Sidebar.handleDeleteClick conversationId confirmed again s0 = s0)
  /\ (forall s0, exists req,
        inflight (Sidebar.handleDeleteClick conversationId true true s0) =
          inflight s0
          ++ [(req, K_deleteConversation conversationId (currentConversationId (app s0)))]
        /\ method req = DELETE)
  /\ exists s',
       step s (E_reply i (Rejected status error)) = Some s'
       /\ messages (app s') = messages (app s)
       /\ currentConversationId (app s') = currentConversationId (app s)
       /\ conversations (app s') = conversations (app s)
       /\ alerts (browser s') = alerts (browser s) ++ [js "Failed to delete conversation"]
       /\ inflight s' = delete i (inflight s).
Proof.
  intros H. split; [|split].
  - intros [] [] s0 Hc; try discriminate Hc; reflexivity.
  - intros s0. eexists. split; [reflexivity|]. by simpl.
  - destruct (step_reply s i q _ (Rejected status error) H) as (s1 & Hs & Ha & Hi & Hal).
    rewrite Hs. simpl. eexists. split; [reflexivity|]. simpl. by rewrite Ha, Hi, Hal.
Qed.

Lemma delete_declined_or_failed_witness :
  Sidebar.handleDeleteClick (IdStr (js "c1")) true false in_c1 = in_c1
  /\ exists s',
       step deleting_c1 (E_reply 0 (Rejected (Some 500%N) None)) = Some s'
       /\ messages (app s') = messages (app in_c1)
       /\ currentConversationId (app s') = Some (IdStr (js "c1"))
       /\ alerts (browser s') = [js "Failed to delete conversation"]
       /\ inflight s' = [].
Proof.
  destruct (delete_declined_or_failed (IdStr (js "c1")) (Some (IdStr (js "c1")))
    deleting_c1 0
    {| method := DELETE; url := js "/conversations/c1"; body := NoBody;
       authorization := Some (js "Bearer t0k3n") |} (Some 500%N) None eq_refl)
    as (Hdecl & _ & s' & Hs & Hm & Hc & _ & Hal & Hi).
  split; [by apply Hdecl|]. exists s'. auto.
Defined.

(** ** Signing in *)

(** X17. On page load, when the token or the stored user is missing or
    empty, [checkAuth] sends nothing: it ends the check and asks for the
    sign-in dialog, and the page stays unauthenticated.  When both are
    there, it changes nothing yet and sends [GET /verify] with the token
    as bearer, keeping the stored user for later. *)
Theorem verification_needs_stored_session (s : Sys) :
  (toBoolean (token (browser s)) && toBoolean (stored_user (browser s)) = false ->
     exists s',
       checkAuth s = (s', None)
       /\ isCheckingAuth (app s') = false
       /\ showAuthModal (app s') = true
       /\ isAuthenticated (app s') = isAuthenticated (app s)
       /\ browser s' = browser s
       /\ inflight s' = inflight s)
  /\ (toBoolean (token (browser s)) && toBoolean (stored_user (browser s)) = true ->
        exists t u,
          token (browser s) = Some t
          /\ stored_user (browser s) = Some u
          /\ checkAuth s =
             (s, Some ({| method := GET; url := js "/verify"; body := NoBody;
                          authorization := Some (js "Bearer " ++ t) |}, u))).
Proof.
  unfold checkAuth, bearer. split; intros H.
  - replace (negb (toBoolean (token (browser s)))
             || negb (toBoolean (stored_user (browser s)))) with true
      by (destruct (toBoolean (token (browser s))),
                   (toBoolean (stored_user (browser s))); done).
    eexists. split; [reflexivity|]. done.
  - apply andb_prop in H as [Ht Hu]. rewrite Ht, Hu. simpl.
    destruct (token (browser s)) as [t|]; [|discriminate Ht].
    destruct (stored_user (browser s)) as [u|]; [|discriminate Hu].
    exists t, u. change (toBoolean (Some t)) with (toBoolean t) in Ht.
    by rewrite Ht.
Qed.

Lemma verification_needs_stored_session_witness :
  (exists s',
     checkAuth (mount visitor) = (s', None)
     /\ isCheckingAuth (app s') = false
     /\ showAuthModal (app s') = true)
  /\ snd (checkAuth (mount page)) =
     Some ({| method := GET; url := js "/verify"; body := NoBody;
              authorization := Some (js "Bearer t0k3n") |}, js "{}").
Proof.
  split.
  - destruct (verification_needs_stored_session (mount visitor)) as [Hno _].
    destruct (Hno eq_refl) as (s' & Hs & Hc & Hm & _). exists s'. auto.
  - destruct (verification_needs_stored_session (mount page)) as [_ Hyes].
    destruct (Hyes eq_refl) as (t & u & Ht & Hu & Hs).
    rewrite Hs. simpl. simpl in Ht, Hu. by injection Ht as <-; injection Hu as <-.
Defined.

(** X18. The verdict on a stored session.  An invalid verdict or a rejected
    request removes the stored token and user and asks for the sign-in
    dialog, leaving the page unauthenticated as it was.  A valid verdict
    makes the page authenticated with the user parsed from storage and, if
    it was not authenticated before, starts the fetch of the list of
    conversations.  A valid verdict on a stored user that does not parse
    has already marked the page authenticated when the parse fails: the
    storage is cleared and the dialog asked for, but the page stays
    authenticated, without a user.  In every case the check is over. *)
Theorem verdict_on_stored_session `{JSON} (storedUser : jsstring) (s : Sys) :
  isAuthenticated (app s) = false ->
  (forall r,
      match r with
      | AuthResolved (D_verify false) | AuthRejected _ _ => True
      | _ => False
      end ->
      exists s',
        checkAuth_settled storedUser r s = Some s'
        /\ token (browser s') = None
        /\ stored_user (browser s') = None
        /\ showAuthModal (app s') = true
        /\ isCheckingAuth (app s') = false
        /\ isAuthenticated (app s') = false
        /\ user (app s') = user (app s)
        /\ inflight s' = inflight s)
  /\ (forall u,
        JSON_parse storedUser = Some u ->
        exists s',
          checkAuth_settled storedUser (AuthResolved (D_verify true)) s = Some s'
          /\ isAuthenticated (app s') = true
          /\ user (app s') = u
          /\ isCheckingAuth (app s') = false
          /\ token (browser s') = token (browser s)
          /\ stored_user (browser s') = stored_user (browser s)
          /\ inflight s' =
             inflight s
             ++ [({| method := GET; url := js "/conversations"; body := NoBody;
                     authorization := bearer (browser s) |}, K_loadConversations A_return)])
  /\ (JSON_parse storedUser = None ->
        exists s',
          checkAuth_settled storedUser (AuthResolved (D_verify true)) s = Some s'
          /\ isAuthenticated (app s') = true
          /\ user (app s') = user (app s)
          /\ token (browser s') = None
          /\ stored_user (browser s') = None
          /\ showAuthModal (app s') = true
          /\ isCheckingAuth (app s') = false).
Proof.
  intros Hu. unfold checkAuth_settled, effect_isAuthenticated. rewrite Hu.
  split; [|split].
  - intros r Hr. destruct r as [[[]| |]|status error]; try done; simpl.
    + rewrite Hu. simpl. eexists. split; [reflexivity|]. by simpl.
    + destruct (response_interceptor_frame (Rejected status error) s) as (Ha & Hi & _).
      rewrite Ha, Hu. simpl. eexists. split; [reflexivity|]. simpl.
      by rewrite Ha, Hi.
  - intros u Hp. rewrite Hp. simpl. eexists. split; [reflexivity|]. by simpl.
  - intros Hp. rewrite Hp. simpl. eexists. split; [reflexivity|]. by simpl.
Qed.

Lemma verdict_on_stored_session_witness :
  (exists s',
     @checkAuth_settled ada_codec ada_json (AuthRejected None None)
       (mount (setItem_user ada_json page)) = Some s'
     /\ token (browser s') = None
     /\ isAuthenticated (app s') = false)
  /\ (exists s',
        @checkAuth_settled ada_codec ada_json (AuthResolved (D_verify true))
          (mount (setItem_user ada_json page)) = Some s'
        /\ isAuthenticated (app s') = true
        /\ user (app s') = Some ada).
Proof.
  destruct (@verdict_on_stored_session ada_codec ada_json
              (mount (setItem_user ada_json page)) eq_refl) as (Hbad & Hgood & _).
  split.
  - destruct (Hbad (AuthRejected None None) I) as (s' & Hs & Ht & _ & _ & _ & Hu & _).
    exists s'. auto.
  - destruct (Hgood (Some ada) eq_refl) as (s' & Hs & Ha & Hu & _).
    exists s'. auto.
Defined.

(** X19. A login that is rejected changes nothing and returns the error
    text of the server, or "Login failed".  A login that resolves stores
    the token and the user (as JSON), makes the page authenticated with
    that user, hides the sign-in dialog and returns success; on a page that
    was not authenticated it also starts the fetch of the list of
    conversations, whose request already carries the new token. *)
Theorem login_outcome `{JSON} (s : Sys) :
  isAuthenticated (app s) = false ->
  (forall status error,
      handleLogin_settled (AuthRejected status error) s =
        Some (s, {| success := false;
                    error := Some (or_else error (js "Login failed")) |}))
  /\ forall tok username user_id, exists s',
       handleLogin_settled (AuthResolved (D_login tok username user_id)) s =
         Some (s', {| success := true; error := None |})
       /\ token (browser s') = Some tok
       /\ stored_user (browser s') =
          Some (JSON_stringify {| username := username; user_id := user_id |})
       /\ isAuthenticated (app s') = true
       /\ user (app s') = Some {| username := username; user_id := user_id |}
       /\ showAuthModal (app s') = false
       /\ messages (app s') = messages (app s)
       /\ inflight s' =
          inflight s
          ++ [({| method := GET; url := js "/conversations"; body := NoBody;
                  authorization :=
                    if toBoolean tok then Some (js "Bearer " ++ tok) else None |},
               K_loadConversations A_return)].
Proof.
  intros Hu. split; [done|]. intros tok username user_id.
  unfold handleLogin_settled, effect_isAuthenticated. simpl. rewrite Hu. simpl.
  eexists. split; [reflexivity|]. by simpl.
Qed.

Lemma login_outcome_witness :
  exists s',
    @handleLogin_settled ada_codec
      (AuthResolved (D_login (js "t0k3n") (js "ada") (IdNum 7))) (mount visitor) =
      Some (s', {| success := true; error := None |})
    /\ stored_user (browser s') = Some ada_json
    /\ user (app s') = Some ada.
Proof.
  destruct (@login_outcome ada_codec (mount visitor) eq_refl) as [_ Hok].
  destruct (Hok (js "t0k3n") (js "ada") (IdNum 7)) as (s' & Hs & _ & Hst & _ & Hus & _).
  exists s'. split; [exact Hs|]. split; [exact Hst | exact Hus].
Defined.

(** X20. A session outlives a reload.  After a login that stored a
    non-empty token, on the page loaded next from the same storage
    [checkAuth] asks for verification with that token; and if the stored
    user parses back to what was stringified, a valid verdict restores the
    very user that logged in and shows the conversation view. *)
Theorem session_survives_reload `{JSON} (tok username : jsstring)
    (user_id : JsId) (s s' : Sys) (res : AuthResult) :
  handleLogin_settled (AuthResolved (D_login tok username user_id)) s = Some (s', res) ->
  toBoolean tok = true ->
  toBoolean (JSON_stringify {| username := username; user_id := user_id |}) = true ->
  JSON_parse (JSON_stringify {| username := username; user_id := user_id |}) =
    Some (Some {| username := username; user_id := user_id |}) ->
  let storedUser := JSON_stringify {| username := username; user_id := user_id |} in
  let reloaded := mount (browser s') in
  checkAuth reloaded =
    (reloaded, Some ({| method := GET; url := js "/verify"; body := NoBody;
                        authorization := Some (js "Bearer " ++ tok) |}, storedUser))
  /\ exists s'',
       checkAuth_settled storedUser (AuthResolved (D_verify true)) reloaded = Some s''
       /\ user (app s'') = Some {| username := username; user_id := user_id |}
       /\ rendered (app s'') = true.
Proof.
  intros Hs Ht Hu Hp storedUser reloaded.
  assert (token (browser s') = Some tok
          /\ stored_user (browser s') = Some storedUser) as [Htok Hsto].
  { unfold handleLogin_settled in Hs. injection Hs as <- _.
    unfold effect_isAuthenticated. by repeat case_match. }
  split.
  - unfold checkAuth, bearer, reloaded, mount. simpl. rewrite Htok, Hsto.
    change (toBoolean (Some tok)) with (toBoolean tok).
    change (toBoolean (Some storedUser)) with (toBoolean storedUser).
    unfold storedUser at 1. by rewrite Ht, Hu.
  - unfold checkAuth_settled, effect_isAuthenticated. unfold storedUser at 1.
    rewrite Hp. simpl. eexists. split; [reflexivity|]. by simpl.
Qed.

Lemma session_survives_reload_witness :
  exists s' s'',
    @handleLogin_settled ada_codec
      (AuthResolved (D_login (js "t0k3n") (js "ada") (IdNum 7))) (mount visitor) =
      Some (s', {| success := true; error := None |})
    /\ @checkAuth_settled ada_codec ada_json (AuthResolved (D_verify true))
         (mount (browser s')) = Some s''
    /\ user (app s'') = Some ada
    /\ rendered (app s'') = true.
Proof.
  eexists _. 
  destruct (@session_survives_reload ada_codec (js "t0k3n") (js "ada") (IdNum 7)
              (mount visitor) _ _ eq_refl eq_refl eq_refl eq_refl)
    as (_ & s'' & Hs'' & Hu & Hr).
  exists s''. split; [reflexivity|]. split; [exact Hs''|]. split; [exact Hu | exact Hr].
Defined.

(** ** Dates in the sidebar *)

(** X21. What [formatDate] shows for a conversation updated [now - d]
    milliseconds ago.  Less than a minute, or a date in the future: "Just
    now".  Then whole minutes from 1 to 59, whole hours from 1 to 23,
    "Yesterday" for one to two days, whole days from 2 to 6, whole weeks
    from 1 to 4 up to thirty days; from thirty days on, and for a date that
    does not parse, the locale date.  No label ever shows a zero. *)
Theorem formatDate_ranges (now d : Z) :
  let age := (now - d)%Z in
  let shows n unit := Sidebar.formatDate now (Some d)
                      = Sidebar.Label (Sidebar.number_to_string n ++ js unit) in
  ((age < 60000)%Z -> Sidebar.formatDate now (Some d) = Sidebar.Label (js "Just now"))
  /\ ((60000 <= age < 3600000)%Z ->
      shows (age / 60000)%Z "m ago" /\ (1 <= age / 60000 <= 59)%Z)
  /\ ((3600000 <= age < 86400000)%Z ->
      shows (age / 3600000)%Z "h ago" /\ (1 <= age / 3600000 <= 23)%Z)
  /\ ((86400000 <= age < 172800000)%Z ->
      Sidebar.formatDate now (Some d) = Sidebar.Label (js "Yesterday"))
  /\ ((172800000 <= age < 604800000)%Z ->
      shows (age / 86400000)%Z "d ago" /\ (2 <= age / 86400000 <= 6)%Z)
  /\ ((604800000 <= age < 2592000000)%Z ->
      shows (age / 86400000 / 7)%Z "w ago" /\ (1 <= age / 86400000 / 7 <= 4)%Z)
  /\ ((2592000000 <= age)%Z ->
      Sidebar.formatDate now (Some d) = Sidebar.toLocaleDateString (Some d) now)
  /\ Sidebar.formatDate now None = Sidebar.toLocaleDateString None now.
Proof.
  intros age shows. unfold shows, Sidebar.formatDate. fold age.
  change (1000 * 60 * 60 * 24)%Z with 86400000%Z.
  change (1000 * 60 * 60)%Z with 3600000%Z.
  change (1000 * 60)%Z with 60000%Z.
  assert (forall P Q : Prop, P -> Q -> P /\ Q) as pair by tauto.
  repeat (apply pair; [intros|]); [..|done];
    repeat match goal with
    | |- _ /\ _ => split
    end;
    try (Z.div_mod_to_equations; lia);
    repeat match goal with
    | |- context [(?a <? ?b)%Z] =>
        let E := fresh "E" in
        destruct (a <? b)%Z eqn:E; [apply Z.ltb_lt in E | apply Z.ltb_ge in E]
    | |- context [(?a =? ?b)%Z] =>
        let E := fresh "E" in
        destruct (a =? b)%Z eqn:E; [apply Z.eqb_eq in E | apply Z.eqb_neq in E]
    end;
    try reflexivity; exfalso; Z.div_mod_to_equations; lia.
Qed.

Lemma formatDate_ranges_witness :
  Sidebar.formatDate 1700000000000%Z (Some 1699999000000%Z) = Sidebar.Label (js "16m ago")
  /\ Sidebar.formatDate 1700000000000%Z (Some 1699900000000%Z) = Sidebar.Label (js "Yesterday")
  /\ Sidebar.formatDate 1700000000000%Z (Some 1698000000000%Z) = Sidebar.Label (js "3w ago").
Proof.
  destruct (formatDate_ranges 1700000000000%Z 1699999000000%Z) as (_ & Hm & _).
  destruct (formatDate_ranges 1700000000000%Z 1699900000000%Z) as (_ & _ & _ & Hy & _).
  destruct (formatDate_ranges 1700000000000%Z 1698000000000%Z) as (_ & _ & _ & _ & _ & Hw & _).
  split; [|split].
  - destruct Hm as [Hm _]; [lia|]. exact Hm.
  - apply Hy. lia.
  - destruct Hw as [Hw _]; [lia|]. exact Hw.
Defined.

(** ** Totals in the sidebar *)

Lemma total_fold_None l :
  fold_left (fun total conv =>
               match total with
               | Some t => Sidebar.add_number t (default 0%Z (message_count conv))
               | None => None
               end) l None = None.
Proof. induction l as [|c l IH]; simpl; [done | exact IH]. Qed.

(** On counts that are not negative the running total is the integer sum
    as long as that stays exact. *)
Lemma total_fold l : forall acc,
  Forall (fun c => (0 <= default 0 (message_count c))%Z) l ->
  (0 <= acc <= 2 ^ 53)%Z ->
  fold_left (fun total conv =>
               match total with
               | Some t => Sidebar.add_number t (default 0%Z (message_count conv))
               | None => None
               end) l (Some acc)
  = if (acc + count_sum l <=? 2 ^ 53)%Z then Some (acc + count_sum l)%Z else None.
Proof.
  induction l as [|c l IH]; intros acc Hl Hacc; simpl.
  - rewrite Z.add_0_r. destruct (acc <=? 2 ^ 53)%Z eqn:E; [done|].
    apply Z.leb_gt in E. lia.
  - inversion Hl as [|? ? Hc Hl']; subst.
    assert (0 <= count_sum l)%Z as Hs.
    { clear -Hl'. induction Hl' as [|d l Hd _ IH]; simpl; lia. }
    unfold Sidebar.add_number, Sidebar.exact.
    destruct (acc + default 0 (message_count c) <=? 2 ^ 53)%Z eqn:E.
    + apply Z.leb_le in E.
      replace ((- 2 ^ 53 <=? acc) && (acc <=? 2 ^ 53))%Z with true
        by (symmetry; apply andb_true_intro; split; apply Z.leb_le; lia).
      replace ((- 2 ^ 53 <=? default 0 (message_count c))
               && (default 0 (message_count c) <=? 2 ^ 53))%Z with true
        by (symmetry; apply andb_true_intro; split; apply Z.leb_le; lia).
      replace (- 2 ^ 53 <=? acc + default 0 (message_count c))%Z with true
        by (symmetry; apply Z.leb_le; lia).
      simpl. rewrite IH by (done || lia).
      by replace (acc + default 0 (message_count c) + count_sum l)%Z
        with (acc + (default 0 (message_count c) + count_sum l))%Z by lia.
    + rewrite !andb_false_r, total_fold_None. apply Z.leb_gt in E.
      destruct (acc + (default 0 (message_count c) + count_sum l) <=? 2 ^ 53)%Z eqn:E2;
        [|done].
      apply Z.leb_le in E2. lia.
Qed.

Lemma count_sum_Permutation l1 l2 : l1 ≡ₚ l2 -> count_sum l1 = count_sum l2.
Proof.
  induction 1 as [|c l l' _ IH|c c' l|l l' l'' _ IH1 _ IH2]; simpl; lia.
Qed.

(** X22. For message counts that are not negative, whenever the total
    shown in the user menu is computed without rounding (every running sum
    stays within 2^53), it is the sum of the counts, a conversation without
    a count adding nothing, and any reordering of the list, such as the
    sort for display, gives the same total. *)
Theorem getTotalMessages_order_free (l1 l2 : list ConversationSummary) (t : Z) :
  Forall (fun c => (0 <= default 0 (message_count c))%Z) l1 ->
  l1 ≡ₚ l2 ->
  Sidebar.getTotalMessages l1 = Some t ->
  t = count_sum l1 /\ Sidebar.getTotalMessages l2 = Some t.
Proof.
  intros Hl Hp Ht. unfold Sidebar.getTotalMessages in *.
  assert (Forall (fun c => (0 <= default 0 (message_count c))%Z) l2) as Hl2.
  { rewrite Forall_forall in *. intros c Hc. apply Hl.
    apply list_elem_of_In. rewrite Hp. by apply list_elem_of_In. }
  rewrite total_fold in Ht by (done || lia).
  rewrite total_fold by (done || lia).
  rewrite <- (count_sum_Permutation l1 l2 Hp).
  destruct (0 + count_sum l1 <=? 2 ^ 53)%Z; [|discriminate Ht].
  injection Ht as <-. split; [lia | done].
Qed.

Lemma getTotalMessages_order_free_witness :
  Sidebar.getTotalMessages (conversations signed_in) = Some 2%Z
  /\ Sidebar.getTotalMessages (reverse (conversations signed_in)) = Some 2%Z.
Proof.
  split; [reflexivity|].
  apply (getTotalMessages_order_free (conversations signed_in)
           (reverse (conversations signed_in)) 2).
  - repeat constructor; simpl; lia.
  - symmetry. apply reverse_Permutation.
  - reflexivity.
Defined.

(** ** The staged image and its preview *)

Lemma preview_call cb st :
  imagePreview (call cb st) = imagePreview st
  /\ selectedImage (call cb st) = selectedImage st.
Proof. by destruct cb. Qed.

Lemma step_preview_matches s e s' :
  preview_matches (app s) -> step s e = Some s' -> preview_matches (app s').
Proof.
  unfold preview_matches. intros Hp Hs. destruct e; simpl in Hs.
  15: { apply deliver_inv in Hs as (q & k & s1 & _ & Ha & _ & Hs).
        rewrite <- Ha in Hp.
        destruct k as [[]| | | | | | |], r as [[]|]; simpl in Hs; unfold_handlers;
          repeat case_match; simplify_eq; simpl; try done; congruence. }
  7: { inv_step Hs. simpl. by destruct (preview_call (utt_onend u0) (app s)) as [-> ->]. }
  all: inv_step Hs; unfold_handlers; repeat case_match; simpl; try done; congruence.
Qed.

(** X23. The preview always belongs to the staged image: after any sequence
    of events, a preview is shown exactly when an image is staged, and it
    is the object URL made from that image.  Picking an image sets both, a
    sent image and the discard button clear both. *)
Theorem preview_follows_staged_image (s : Sys) (es : list Event) (s' : Sys) :
  preview_matches (app s) -> run s es = Some s' -> preview_matches (app s').
Proof.
  revert s. induction es as [|e es IH]; simpl; intros s Hinv Hrun.
  - by injection Hrun as <-.
  - destruct (step s e) as [s1|] eqn:Hs; [|done].
    apply (IH s1); [|done]. by eapply step_preview_matches.
Qed.

Lemma preview_follows_staged_image_witness :
  exists s',
    run idle [E_file (Some clause_png); E_input (js "Explain this clause"); E_send;
              E_file (Some contract_pdf);
              E_reply 0 (Resolved (D_chat (js "It limits liability.") None None))]
      = Some s'
    /\ preview_matches (app s')
    /\ selectedImage (app s') = None.
Proof.
  eexists. split; [vm_compute; reflexivity|]. split; [|vm_compute; reflexivity].
  eapply (preview_follows_staged_image idle
    [E_file (Some clause_png); E_input (js "Explain this clause"); E_send;
     E_file (Some contract_pdf);
     E_reply 0 (Resolved (D_chat (js "It limits liability.") None None))]);
    [reflexivity | vm_compute; reflexivity].
Defined.
